(** * i3configger: fragment selection, state commands and rebuild checks

    A shallow embedding of [i3configger/partials.py], [i3configger/config.py],
    [i3configger/lib.py] and [get_selector_map] of [i3configger/utils.py].

    Conventions of the embedding:
    - a Python [str] is a [string] whose characters are code points below 256;
    - a Python [dict] with string keys is a [gmap string _];
    - a function that can raise returns a [Result]; a function that mutates an
      argument or writes a file returns the new content next to its result;
    - a [pathlib.Path] is the text of the path, components separated by [/]. *)

From stdpp Require Import gmap strings list fin_maps.
From Stdlib Require Import Ascii String ZArith.
From Stdlib Require Import PrimFloat.
From Stdlib Require OrderedTypeEx.
From Stdlib Require Import Sorted.

(** ** Exceptions and results

    An exception keeps the arguments the properties below look at; the
    text of a message that formats its arguments is abridged. *)

Inductive Exn : Type :=
| KeyError (key : string)
| ValueError (msg : string)
| IndexError (msg : string)
| TypeError (msg : string)
| AttributeError (msg : string)
| NoSectionError (section : string)
| NoOptionError (opt : string)
| InterpolationSyntaxError (msg : string)
| InterpolationMissingOptionError (reference : string)
| InterpolationDepthError
| I3configgerException (msg : string)
| ConfigError (msg : string) (selector : gmap string string)
| MessageError (msg : string)
| BuildDefError (msg : string).

Inductive Result (A : Type) : Type :=
| Ok (a : A)
| Raise (e : Exn).
Arguments Ok {A} a.
Arguments Raise {A} e.

Definition bind {A B} (r : Result A) (k : A -> Result B) : Result B :=
  match r with
  | Ok a => k a
  | Raise e => Raise e
  end.

Notation "'do' x <- r ; k" := (bind r (fun x => k))
  (at level 10, x name, r at level 100, k at level 200).

(** ** The string and list operations of Python the sources use *)

Module Py.

Definition LF : ascii := ascii_of_nat 10.
Definition CR : ascii := ascii_of_nat 13.

(** [str.isspace] on one code point below 256; the class [\s] of [re] on
    [str] patterns is the same set. *)
Definition isspace (c : ascii) : bool :=
  let n := nat_of_ascii c in
  ((9 <=? n) && (n <=? 13)) || ((28 <=? n) && (n <=? 32))
  || (n =? 133) || (n =? 160).

(** The line boundaries of [str.splitlines] below 256. *)
Definition is_linebreak (c : ascii) : bool :=
  let n := nat_of_ascii c in
  ((10 <=? n) && (n <=? 13)) || ((28 <=? n) && (n <=? 30)) || (n =? 133).

(** [s.splitlines()]: no trailing empty line, CR LF is one boundary. *)
Fixpoint splitlines (s : string) : list string :=
  match s with
  | EmptyString => []
  | String c r =>
      if is_linebreak c then
        match r with
        | String c2 r2 =>
            if Ascii.eqb c CR && Ascii.eqb c2 LF
            then EmptyString :: splitlines r2
            else EmptyString :: splitlines r
        | EmptyString => [EmptyString]
        end
      else
        match splitlines r with
        | l :: ls => String c l :: ls
        | [] => [String c EmptyString]
        end
  end.

Fixpoint lstrip (s : string) : string :=
  match s with
  | EmptyString => EmptyString
  | String c r => if isspace c then lstrip r else s
  end.

Fixpoint rstrip (s : string) : string :=
  match s with
  | EmptyString => EmptyString
  | String c r =>
      match rstrip r with
      | EmptyString => if isspace c then EmptyString else String c EmptyString
      | r' => String c r'
      end
  end.

(** [s.strip()] *)
Definition strip (s : string) : string := rstrip (lstrip s).

(** [s.startswith(p)] *)
Definition startswith (s p : string) : bool := String.prefix p s.

(** [sub in s] *)
Fixpoint contains (sub s : string) : bool :=
  String.prefix sub s ||
  match s with
  | EmptyString => false
  | String _ r => contains sub r
  end.

(** [s.split(sep)] for a non-empty [sep]. [skip] counts the characters of
    a separator occurrence that are still to be passed over. *)
Fixpoint split_go (sep : string) (skip : nat) (s : string) : list string :=
  match s with
  | EmptyString => [EmptyString]
  | String c r =>
      match skip with
      | S k => split_go sep k r
      | O =>
          if String.prefix sep s
          then EmptyString :: split_go sep (String.length sep - 1) r
          else match split_go sep 0 r with
               | l :: ls => String c l :: ls
               | [] => [String c EmptyString]
               end
      end
  end.

Definition split (s sep : string) : list string := split_go sep 0 s.

(** [s.rsplit(sep, maxsplit=1)[0]]: the text before the last occurrence
    of [sep], the whole of [s] when there is none. *)
Fixpoint before_last (sep s : string) : option string :=
  match s with
  | EmptyString => None
  | String c r =>
      match before_last sep r with
      | Some h => Some (String c h)
      | None => if String.prefix sep s then Some EmptyString else None
      end
  end.

Definition rsplit1_head (s sep : string) : string :=
  match before_last sep s with
  | Some h => h
  | None => s
  end.

(** [sep.join(parts)] *)
Fixpoint join (sep : string) (parts : list string) : string :=
  match parts with
  | [] => EmptyString
  | [p] => p
  | p :: ps => p +:+ sep +:+ join sep ps
  end.

(** [s.rfind(c)], [None] for -1. *)
Fixpoint rfind (c : ascii) (s : string) : option nat :=
  match s with
  | EmptyString => None
  | String d r =>
      match rfind c r with
      | Some i => Some (S i)
      | None => if Ascii.eqb d c then Some 0 else None
      end
  end.

(** [c.lower()] and [s.lower()] below 256: A-Z, and the Latin-1 capitals
    0xC0-0xDE without the multiplication sign 0xD7. *)
Definition lower_char (c : ascii) : ascii :=
  let n := nat_of_ascii c in
  if ((65 <=? n) && (n <=? 90))
     || ((192 <=? n) && (n <=? 222) && negb (n =? 215))
  then ascii_of_nat (n + 32) else c.

Fixpoint lower (s : string) : string :=
  match s with
  | EmptyString => EmptyString
  | String c r => String (lower_char c) (lower r)
  end.

(** [l[i]] for a Python integer [i]: negative indices count from the end. *)
Definition getitem {A} (l : list A) (i : Z) : Result A :=
  let n := Z.of_nat (List.length l) in
  let j := if (i <? 0)%Z then (n + i)%Z else i in
  if ((0 <=? j) && (j <? n))%Z
  then match l !! Z.to_nat j with
       | Some x => Ok x
       | None => Raise (IndexError "list index out of range")
       end
  else Raise (IndexError "list index out of range").

(** [l.index(x)]: position of the first element equal to [x]. *)
Definition index {A} `{EqDecision A} (l : list A) (x : A) : Result Z :=
  match list_find (fun y => y = x) l with
  | Some (i, _) => Ok (Z.of_nat i)
  | None => Raise (ValueError "x is not in list")
  end.

(** Binding the positional arguments of a call to a method that declares
    exactly one parameter besides [self]. *)
Definition call1 {A B} (f : A -> B) (args : list A) : Result B :=
  match args with
  | [a] => Ok (f a)
  | _ => Raise (TypeError "wrong number of positional arguments")
  end.

End Py.

(** ** pathlib *)

Module PathLib.

Definition Path := string.

(** [path.name]: the final component. *)
Definition name (p : Path) : string :=
  match Py.before_last "/" p with
  | Some _ => default p (last (Py.split p "/"))
  | None => p
  end.

(** The position of the dot that starts the suffix, when [0 < i < len - 1]. *)
Definition suffix_dot (nm : string) : option nat :=
  match Py.rfind "." nm with
  | Some i => if (0 <? i) && (i <? String.length nm - 1) then Some i else None
  | None => None
  end.

(** [path.suffix] *)
Definition suffix (p : Path) : string :=
  let nm := name p in
  match suffix_dot nm with
  | Some i => String.substring i (String.length nm - i) nm
  | None => EmptyString
  end.

(** [path.stem] *)
Definition stem (p : Path) : string :=
  let nm := name p in
  match suffix_dot nm with
  | Some i => String.substring 0 i nm
  | None => nm
  end.

End PathLib.

(** ** [i3configger/partials.py] *)

Module partials.
Import PathLib.

(** A [Partial] holds its [path]; [_raw] is the text [path.read_text()]
    returns while the functions below run (none of them writes a
    fragment file). *)
Record Partial : Type := { path : Path; _raw : string }.

#[global] Instance Partial_eq_dec : EqDecision Partial.
Proof. solve_decision. Defined.

Definition COMMENT_MARK : string := "#".
Definition END_OF_LINE_COMMENT_MARK : string := " # ".
Definition DEFAULT_NAME : string := "default".
Definition DEFAULT_MARKER : string := "# i3configger default".

(** The attributes [__init__] derives from the path. *)
Definition name (self : Partial) : string := PathLib.name (path self).

Definition selectors (self : Partial) : list string :=
  Py.split (PathLib.stem (path self)) ".".

Definition conditional (self : Partial) : bool :=
  1 <? List.length (selectors self).

Definition key (self : Partial) : option string :=
  if conditional self then selectors self !! 0 else None.

Definition value (self : Partial) : option string :=
  if conditional self then selectors self !! 1 else None.

(** [__lt__] *)
Definition lt (self other : Partial) : bool :=
  String.ltb (name self) (name other).

Definition isDefault (self : Partial) : bool :=
  if bool_decide (value self = Some DEFAULT_NAME) then true
  else if Py.contains DEFAULT_MARKER (_raw self) then true
  else false.

(** [CONTINUATION_RE]: a backslash, white space, a backslash, any number
    of the letter s, a line feed. Each of the two lazy stars can stop at
    one place only, so a match at a given start is unique; the functions
    return the number of characters the rest of the pattern consumes. *)
Fixpoint continuation_tail (s : string) : option nat :=
  match s with
  | EmptyString => None
  | String c r =>
      if Ascii.eqb c Py.LF then Some 1
      else if Ascii.eqb c "s" then S <$> continuation_tail r
      else None
  end.

Fixpoint continuation_middle (s : string) : option nat :=
  match s with
  | EmptyString => None
  | String c r =>
      if Ascii.eqb c "\" then S <$> continuation_tail r
      else if Py.isspace c then S <$> continuation_middle r
      else None
  end.

Definition continuation_match (s : string) : option nat :=
  match s with
  | String c r => if Ascii.eqb c "\" then S <$> continuation_middle r else None
  | EmptyString => None
  end.

(** [re.sub(CONTINUATION_RE, ' ', s)]: leftmost matches, not overlapping.
    [skip] counts the characters of the current match still to drop. *)
Fixpoint sub_continuation (skip : nat) (s : string) : string :=
  match s with
  | EmptyString => EmptyString
  | String c r =>
      match skip with
      | S k => sub_continuation k r
      | O =>
          match continuation_match s with
          | Some n => String " " (sub_continuation (n - 1) r)
          | None => String c (sub_continuation 0 r)
          end
      end
  end.

Definition _joined (self : Partial) : string :=
  sub_continuation 0 (_raw self).

(** The loop of [payload]. *)
Fixpoint payload_lines (lines : list string) : list string :=
  match lines with
  | [] => []
  | line :: rest =>
      let l := Py.strip line in
      if bool_decide (l = EmptyString) then payload_lines rest
      else if Py.startswith l COMMENT_MARK then payload_lines rest
      else Py.rsplit1_head line END_OF_LINE_COMMENT_MARK :: payload_lines rest
  end.

Definition payload (self : Partial) : string :=
  Py.join (String Py.LF EmptyString)
    (payload_lines (Py.splitlines (_joined self))).

Section with_base.
(** [base.SET_MARK]: the module [base] is not among the modules embedded
    here, its constant is a parameter. *)
Variable SET_MARK : string.

(** The loop of [filtered]. *)
Fixpoint filtered_lines (lines : list string) : list string :=
  match lines with
  | [] => []
  | line :: rest =>
      let l := Py.strip line in
      if bool_decide (l = EmptyString) then filtered_lines rest
      else if negb (Py.startswith l SET_MARK)
              && negb (Py.startswith l COMMENT_MARK)
           then line :: filtered_lines rest
           else filtered_lines rest
  end.

Definition filtered (self : Partial) : string :=
  Py.join (String Py.LF EmptyString)
    (filtered_lines (Py.splitlines (_joined self))).

(** ["### %s ###\n%s\n\n" % (name, text)] *)
Definition banner (nm text : string) : string :=
  "### " +:+ nm +:+ " ###" +:+ String Py.LF EmptyString
  +:+ text +:+ String Py.LF (String Py.LF EmptyString).

Definition display (self : Partial) : string :=
  if bool_decide (filtered self = EmptyString) then EmptyString
  else banner (PathLib.name (path self)) (filtered self).
End with_base.

(** [find]: the first partial with that key and value, [None] when the
    loop ends without a [return]. *)
Fixpoint find (prts : list Partial) (k v : string) : option Partial :=
  match prts with
  | [] => None
  | prt :: rest =>
      if bool_decide (key prt = Some k) && bool_decide (value prt = Some v)
      then Some prt else find rest k v
  end.

(** What [select] returns: [selected[0]] when exactly one partial was
    selected, the list otherwise. *)
Inductive Selected : Type :=
| Bare (p : Partial)
| Listed (ps : list Partial).

(** The closure [_select] on the two objects it touches: the list
    [selected] and the caller's dict [selector]. No key of [selector] is
    [None], so [partial.key in selector] is false for an unconditional
    partial. *)
Definition _select (partial : Partial)
    (st : gmap string string * list Partial)
  : gmap string string * list Partial :=
  let '(selector, selected) := st in
  let selected := selected ++ [partial] in
  match key partial with
  | Some k =>
      if bool_decide (is_Some (selector !! k))
      then (delete k selector, selected)
      else (selector, selected)
  | None => (selector, selected)
  end.

(** [partial.key in excludes] for [excludes] a list of keys or [None]. *)
Definition excluded (excludes : option (list string)) (partial : Partial)
  : bool :=
  match excludes, key partial with
  | Some (e :: es), Some k => bool_decide (k ∈ e :: es)
  | _, _ => false
  end.

(** [selector and partial.key in selector and
    partial.value == selector.get(partial.key)] *)
Definition selected_by (selector : gmap string string) (partial : Partial)
  : bool :=
  match key partial with
  | Some k =>
      bool_decide (selector ≠ ∅)
      && bool_decide (is_Some (selector !! k))
      && bool_decide (value partial = selector !! k)
  | None => false
  end.

(** One turn of the [for] loop of [select]. *)
Definition select_step (excludes : option (list string))
    (conditionals defaults : bool) (partial : Partial)
    (st : gmap string string * list Partial)
  : gmap string string * list Partial :=
  if conditional partial then
    if excluded excludes partial then st
    else if selected_by st.1 partial then _select partial st
    else if defaults && isDefault partial then _select partial st
    else st
  else if conditionals then _select partial st
  else st.

Fixpoint select_loop (partials : list Partial)
    (excludes : option (list string)) (conditionals defaults : bool)
    (st : gmap string string * list Partial)
  : gmap string string * list Partial :=
  match partials with
  | [] => st
  | partial :: rest =>
      select_loop rest excludes conditionals defaults
        (select_step excludes conditionals defaults partial st)
  end.

(** [selected[0] if len(selected) == 1 else selected] *)
Definition one_or_list (selected : list Partial) : Selected :=
  match selected with
  | [p] => Bare p
  | _ => Listed selected
  end.

(** [select], for a dict [selector]. The second component is the content
    of the caller's dict object when the call ends, by [return] or by
    [raise]. *)
Definition select (partials : list Partial) (selector : gmap string string)
    (excludes : option (list string)) (conditionals defaults : bool)
  : Result Selected * gmap string string :=
  let '(selector, selected) :=
    select_loop partials excludes conditionals defaults (selector, []) in
  if bool_decide (selector ≠ ∅)
  then (Raise (ConfigError "not all selector processed: %s" selector),
        selector)
  else (Ok (one_or_list selected), selector).

(** [get_content], again with the caller's dict after the call. *)
Definition get_content (SET_MARK : string) (prts : list Partial)
    (selectorMap : gmap string string) (excludes : option (list string))
  : Result string * gmap string string :=
  match select prts selectorMap excludes true true with
  | (Raise e, m) => (Raise e, m)
  | (Ok (Listed []), m) =>
      (Raise (I3configgerException "No content for %s, %s, %s"), m)
  | (Ok (Listed ps), m) =>
      (Ok (Py.join EmptyString (display SET_MARK <$> ps)), m)
  | (Ok (Bare p), m) => (Ok (display SET_MARK p), m)
  end.

End partials.

(** ** Notions used to state the properties of [partials] *)

Module partials_spec.
Import partials.

(** The lines the two loops keep, said as predicates on a line. *)
Definition kept_by_payload (line : string) : Prop :=
  Py.strip line ≠ EmptyString
  ∧ Py.startswith (Py.strip line) COMMENT_MARK = false.

Definition kept_by_filtered (SET_MARK line : string) : Prop :=
  Py.strip line ≠ EmptyString
  ∧ Py.startswith (Py.strip line) SET_MARK = false
  ∧ Py.startswith (Py.strip line) COMMENT_MARK = false.

#[global] Instance kept_by_payload_dec line : Decision (kept_by_payload line).
Proof. unfold kept_by_payload. apply _. Defined.

#[global] Instance kept_by_filtered_dec SET_MARK line :
  Decision (kept_by_filtered SET_MARK line).
Proof. unfold kept_by_filtered. apply _. Defined.

(** Two calls in a row that pass the same dict object: the second call
    starts from what the first left in it. *)
Definition select_twice (partials : list Partial)
    (selector : gmap string string) (excludes : option (list string))
    (conditionals defaults : bool)
  : Result Selected * Result Selected * gmap string string :=
  let '(first, selector) :=
    select partials selector excludes conditionals defaults in
  let '(second, selector) :=
    select partials selector excludes conditionals defaults in
  (first, second, selector).

(** The partials of a result, whichever shape it has. *)
Definition as_list (r : Selected) : list Partial :=
  match r with
  | Bare p => [p]
  | Listed ps => ps
  end.

(** The three kinds of fragment the selection is specified with: a
    fragment without selector, a fragment whose key the map holds with
    its value, and a default whose key the map does not hold. *)
Definition unconditional (p : Partial) : Prop := conditional p = false.

Definition requested_by (sel : gmap string string) (p : Partial) : Prop :=
  ∃ k v, key p = Some k ∧ value p = Some v ∧ sel !! k = Some v.

Definition key_absent (sel : gmap string string) (p : Partial) : Prop :=
  match key p with
  | Some k => sel !! k = None
  | None => False
  end.

Definition default_for (sel : gmap string string) (p : Partial) : Prop :=
  key_absent sel p ∧ isDefault p = true.

#[global] Instance key_absent_dec sel p : Decision (key_absent sel p).
Proof. unfold key_absent. destruct (key p); apply _. Defined.

#[global] Instance default_for_dec sel p : Decision (default_for sel p).
Proof. unfold default_for. apply _. Defined.

#[global] Instance unconditional_dec p : Decision (unconditional p).
Proof. unfold unconditional. apply _. Defined.

End partials_spec.

(** ** [i3configger/config.py]: the state store *)

Module config.
Import partials.

(** The state document: the dicts under ["select"] and ["set"]. *)
Record StateDoc : Type :=
  { state_select : gmap string string; state_set : gmap string string }.

(** The first element of a message: the name as text, or one of the
    (name, arity) tuples of [State]. The two never compare equal. *)
Inductive Command : Type :=
| Name (s : string)
| Spec (nm : string) (arity : nat).

#[global] Instance Command_eq_dec : EqDecision Command.
Proof. solve_decision. Defined.

Definition I3STATUS : string := "i3status".
Definition SELECT_NEXT : Command := Spec "select-next" 1.
Definition SELECT_PREVIOUS : Command := Spec "select-previous" 1.
Definition SELECT : Command := Spec "select" 2.
Definition SET : Command := Spec "set" 2.
Definition _ALL : list Command := [SELECT_NEXT; SELECT_PREVIOUS; SELECT; SET].
Definition DEL : string := "del".

(** A message: [None] for [None] or the empty list, [Some (command, args)]
    for the list [[command] + args]; the arguments are strings. *)
Definition Message : Type := option (Command * list string).

(** [x or y] for an optional string: [None] and the empty string are
    false. *)
Definition truthy_str (o : option string) : option string :=
  match o with
  | Some EmptyString => None
  | _ => o
  end.

(** [_next] *)
Definition _next {A} `{EqDecision A} (current : A) (items : list A)
  : Result A :=
  do i <- Py.index items current;
  match Py.getitem items (i + 1) with
  | Raise (IndexError _) => Py.getitem items 0
  | r => r
  end.

(** [_previous] *)
Definition _previous {A} `{EqDecision A} (current : A) (items : list A)
  : Result A :=
  do i <- Py.index items current;
  match Py.getitem items (i - 1) with
  | Raise (IndexError _) => Py.getitem items (-1)
  | r => r
  end.

(** [FUNC_MAP[command]] for a command that is in the map. The values are
    the [staticmethod] objects of the class body, which can be called as
    they are from Python 3.10 on. *)
Definition FUNC_MAP {A} `{EqDecision A} (command : Command)
  : A -> list A -> Result A :=
  if bool_decide (command = SELECT_NEXT) then _next else _previous.

(** [get_spec] *)
Fixpoint get_spec_in (all : list Command) (message : string) : Result nat :=
  match all with
  | [] => Raise (MessageError "unknown message")
  | Spec nm arity :: rest =>
      if bool_decide (nm = message) then Ok arity
      else get_spec_in rest message
  | Name _ :: rest => get_spec_in rest message
  end.

Definition get_spec (message : string) : Result nat :=
  get_spec_in _ALL message.

(** [prt.needsSelection]: the class [Partial] sets the attributes [path],
    [name], [selectors], [conditional], [key] and [value], has the
    properties [isDefault], [display], [filtered], [payload], [_joined]
    and [_raw], and defines no [__getattr__]. Reading any other attribute
    raises. *)
Definition needsSelection (prt : Partial) : Result bool :=
  Raise (AttributeError "'Partial' object has no attribute 'needsSelection'").

(** The loop of [populate_initial_state]. The assignment
    [selects[prt.key] = prt.value] comes after the test, which raises on
    the first fragment. *)
Fixpoint initial_selects (prts : list Partial) (selects : gmap string string)
  : Result (gmap string string) :=
  match prts with
  | [] => Ok selects
  | prt :: rest =>
      do needs <- needsSelection prt;
      initial_selects rest
        (if needs && negb (bool_decide (key prt = Some I3STATUS))
         then match key prt, value prt with
              | Some k, Some v => <[k := v]> selects
              | _, _ => selects
              end
         else selects)
  end.

(** The file at [statePath]: [None] when it does not exist. [freeze]
    replaces its content. *)
Definition Disk : Type := option StateDoc.

Definition freeze (obj : StateDoc) : Disk := Some obj.

(** [populate_initial_state], called when there is no file: the state it
    returns and the file afterwards. An exception in the loop comes
    before [freeze]. *)
Definition populate_initial_state (prts : list Partial)
  : Result StateDoc * Disk :=
  match initial_selects prts ∅ with
  | Ok selects =>
      let state := {| state_select := selects; state_set := ∅ |} in
      (Ok state, freeze state)
  | Raise e => (Raise e, None)
  end.

Definition fetch_state (disk : Disk) (prts : list Partial)
  : Result StateDoc * Disk :=
  match disk with
  | None => populate_initial_state prts
  | Some payload => (Ok payload, disk)
  end.

(** The body of [process] between [fetch_state] and [freeze]: the state
    dict after the command, or the exception that ends the call. *)
Definition apply_command (state : StateDoc) (prts : list Partial)
    (command : Command) (k : string) (value : option string)
  : Result StateDoc :=
  if bool_decide (command = SET) then
    match value with
    | None => Raise (AttributeError "'NoneType' object has no attribute 'lower'")
    | Some v =>
        if bool_decide (Py.lower v = DEL) then
          match state_set state !! k with
          | Some _ =>
              Ok {| state_select := state_select state;
                    state_set := delete k (state_set state) |}
          | None => Raise (KeyError k)
          end
        else
          Ok {| state_select := state_select state;
                state_set := <[k := v]> (state_set state) |}
    end
  else if bool_decide (command ∈ [SELECT_NEXT; SELECT_PREVIOUS]) then
    (* [partials.find(prts, key)]: [find] declares [prts], [key] and
       [value], none with a default; the call leaves [value] without an
       argument *)
    do candidates <- Py.call1 (find prts k) [];
    (* what follows the call is written for a list of candidates; [find]
       returns one partial or [None] *)
    match candidates with
    | None => Raise (MessageError "No candidates for {message} in {prts}")
    | Some _ =>
        match truthy_str (state_select state !! k) with
        | Some _ =>
            (* [items.index(current)] in [_next] and [_previous] *)
            Raise (AttributeError "'Partial' object has no attribute 'index'")
        | None =>
            (* [candidates[-1]] *)
            Raise (TypeError "'Partial' object is not subscriptable")
        end
    end
  else if bool_decide (command = SELECT) then
    (* [find(prts, key, None)] finds nothing: a partial with a key has a
       value *)
    match value ≫= find prts k with
    | None => Raise (MessageError "No candidate for {message}")
    | Some candidate =>
        (* [value.lower == cls.DEL] compares a bound method with a
           string: false *)
        match partials.value candidate with
        | Some v =>
            Ok {| state_select := <[k := v]> (state_select state);
                  state_set := state_set state |}
        | None =>
            (* not reached: [find] returned a partial with this value *)
            Raise (TypeError "None is not a selectable value")
        end
    end
  else Ok state.

(** [State.process]: what the call returns and the file at [statePath]
    afterwards. *)
Definition process (disk : Disk) (prts : list Partial) (message : Message)
  : Result (option StateDoc) * Disk :=
  match fetch_state disk prts with
  | (Raise e, disk) => (Raise e, disk)
  | (Ok state, disk) =>
      match message with
      | None => (Ok (Some state), disk)
      | Some (command, []) =>
          (Raise (ValueError "not enough values to unpack (expected at least 2, got 1)"),
           disk)
      | Some (command, k :: rest) =>
          match apply_command state prts command k (head rest) with
          | Ok state => (Ok None, freeze state)
          | Raise e => (Raise e, disk)
          end
      end
  end.

End config.

(** ** [i3configger/lib.py]: build definitions *)

Module lib.
Import PathLib.

(** A [ConfigParser] after reading: section name to option name to text.
    The entry under [DEFAULTSECT] is the dict of defaults, every other
    entry is a section. *)
Definition Config : Type := gmap string (gmap string string).

Definition DEFAULTSECT : string := "DEFAULT".
Definition MAX_INTERPOLATION_DEPTH : nat := 10.

Definition _defaults (config : Config) : gmap string string :=
  default ∅ (config !! DEFAULTSECT).

(** [_unify_values(section, None)]: the options of the section over the
    defaults. The name of the default section is no section and raises
    nothing. *)
Definition _unify_values (config : Config) (section : string)
  : Result (gmap string string) :=
  if bool_decide (section = DEFAULTSECT) then Ok (_defaults config)
  else match config !! section with
       | Some sectiondict => Ok (sectiondict ∪ _defaults config)
       | None => Raise (NoSectionError section)
       end.

(** Where the loop of [_interpolate_some] is in the text: in plain text,
    after a [%], inside the name of [%(name)s], or after its [)]. *)
Inductive Scan : Type :=
| Text
| Percent
| Reference (name : string)
| Closed (name : string).

(** The loop of [BasicInterpolation._interpolate_some] over [rest];
    [deeper] is the call for a value that holds a [%], one level down. *)
Fixpoint scan (deeper : string -> Result string) (map : gmap string string)
    (at_ : Scan) (rest : string) : Result string :=
  match at_, rest with
  | Text, EmptyString => Ok EmptyString
  | Text, String "%" r => scan deeper map Percent r
  | Text, String c r => do t <- scan deeper map Text r; Ok (String c t)
  | Percent, String "%" r =>
      do t <- scan deeper map Text r; Ok (String "%" t)
  | Percent, String "(" r => scan deeper map (Reference EmptyString) r
  | Percent, _ =>
      Raise (InterpolationSyntaxError "'%' must be followed by '%' or '('")
  | Reference name, String ")" r =>
      if bool_decide (name = EmptyString)
      then Raise (InterpolationSyntaxError
                    "bad interpolation variable reference")
      else scan deeper map (Closed name) r
  | Reference name, String c r =>
      scan deeper map (Reference (name +:+ String c EmptyString)) r
  | Reference _, EmptyString =>
      Raise (InterpolationSyntaxError "bad interpolation variable reference")
  | Closed name, String "s" r =>
      match map !! Py.lower name with
      | None => Raise (InterpolationMissingOptionError (Py.lower name))
      | Some v =>
          do text <- (if Py.contains "%" v then deeper v else Ok v);
          do t <- scan deeper map Text r;
          Ok (text +:+ t)
      end
  | Closed _, _ =>
      Raise (InterpolationSyntaxError "bad interpolation variable reference")
  end.

(** [_interpolate_some] with [depth_left] levels to go: the call at depth
    1 has [MAX_INTERPOLATION_DEPTH] of them. *)
Fixpoint _interpolate_some (depth_left : nat) (map : gmap string string)
    (rest : string) : Result string :=
  match depth_left with
  | O => Raise InterpolationDepthError
  | S deeper => scan (_interpolate_some deeper map) map Text rest
  end.

(** [config.get(section, option)]; [optionxform] is [str.lower]. *)
Definition get (config : Config) (section opt : string) : Result string :=
  do d <- _unify_values config section;
  match d !! Py.lower opt with
  | Some value => _interpolate_some MAX_INTERPOLATION_DEPTH d value
  | None => Raise (NoOptionError (Py.lower opt))
  end.

(** [config.get(section, option, fallback=[])]: [None] is the fallback,
    which stands in for a missing section and a missing option only. *)
Definition get_fallback (config : Config) (section opt : string)
  : Result (option string) :=
  match _unify_values config section with
  | Raise _ => Ok None
  | Ok d =>
      match d !! Py.lower opt with
      | Some value =>
          do v <- _interpolate_some MAX_INTERPOLATION_DEPTH d value;
          Ok (Some v)
      | None => Ok None
      end
  end.

(** [config.getboolean(section, option)] *)
Definition getboolean (config : Config) (section opt : string)
  : Result bool :=
  do v <- get config section opt;
  let l := Py.lower v in
  if bool_decide (l ∈ ["1"; "yes"; "true"; "on"]) then Ok true
  else if bool_decide (l ∈ ["0"; "no"; "false"; "off"]) then Ok false
  else Raise (ValueError "Not a boolean").

(** Times are seconds, as the binary64 floats of Python. *)
Definition Time : Type := PrimFloat.float.

Record BuildDef : Type :=
  { name : string;
    target : Path;
    sources : list Path;
    addheader : bool;
    addinfo : bool;
    suffix : string;
    themes : list Path;
    excludes : list string;
    files : list string;
    theme : option string;
    watchPaths : list Path;
    lastFilename : option Path;
    lastBuild : option Time }.

(** [0.1] *)
Definition BUILD_DELAY : Time := 0x1.999999999999ap-4%float.
Definition MARK : string := "builddef:".

(** The elements [in] compares in [matches]: a string is never equal to
    a [Path]. *)
Inductive StrOrPath : Type :=
| AStr (s : string)
| APath (p : Path).

#[global] Instance StrOrPath_eq_dec : EqDecision StrOrPath.
Proof. solve_decision. Defined.

(** [matches]: [Some false] for [return False], [None] when the body ends
    without a [return]. *)
Definition matches (self : BuildDef) (path : Path) : option bool :=
  if bool_decide (PathLib.suffix path ≠ suffix self) then Some false
  else if bool_decide (AStr (PathLib.stem path) ∉ APath <$> watchPaths self)
       then Some false
       else None.

(** [not x] for what [matches] returns. *)
Definition not_ (x : option bool) : bool :=
  match x with
  | Some true => false
  | _ => true
  end.

(** [not self.lastBuild]: [None] and zero are false. *)
Definition not_time (t : option Time) : bool :=
  match t with
  | None => true
  | Some q => PrimFloat.eqb q 0%float
  end.

(** The body of [needs_build] after the call of [matches]; [now] is what
    [time.time()] returns. *)
Definition needs_build_after (self : BuildDef) (matched : option bool)
    (filename : Path) (now : Time) : bool :=
  if not_ matched then false
  else if not_time (lastBuild self) then true
  else if bool_decide (Some filename ≠ lastFilename self) then true
  else match lastBuild self with
       | Some t =>
           if PrimFloat.leb BUILD_DELAY (PrimFloat.sub now t)
           then true else false
       | None => false
       end.

(** [needs_build]; [header] and [typeNames] are not looked at. The call
    [self.matches(filename, watchPath)] passes two arguments to a method
    that declares one. *)
Definition needs_build (self : BuildDef) (watchPath filename : Path)
    (now : Time) : Result bool :=
  do matched <- Py.call1 (matches self) [filename; watchPath];
  Ok (needs_build_after self matched filename now).

(** [check_sanity] *)
Definition check_sanity (self : BuildDef) : Result unit :=
  match files self, excludes self with
  | _ :: _, _ :: _ =>
      Raise (BuildDefError "files and excludes can't be used together.")
  | _, _ => Ok tt
  end.

(** The loop of [prep] over [items = [incoming]]. *)
Definition serialize (item : string) : list string :=
  if Py.contains (String Py.LF EmptyString) item
  then List.filter (fun p => negb (bool_decide (p = EmptyString)))
         (Py.split item (String Py.LF EmptyString))
  else [item].

Section with_environment.
(** [Path(os.path.expandvars(path)).expanduser()] reads the environment
    of the process. *)
Variable expand : string -> Path.

(** [prep]; [incoming] is a string, or [None] for the fallback [[]]. *)
Definition prep (incoming : option string) (asPaths : bool) : list string :=
  match incoming with
  | None | Some EmptyString => []
  | Some item =>
      let serializedItems := serialize item in
      if negb asPaths then serializedItems
      else expand <$> serializedItems
  end.

(** [BuildDef.__init__] *)
Definition __init__ (config : Config) (section : string)
  : Result BuildDef :=
  do name_ <- Py.getitem (Py.split section MARK) (-1);
  do target_text <- get config section "target";
  do target_ <- Py.getitem (prep (Some target_text) true) 0;
  do sources_text <- get config section "sources";
  do addheader_ <- getboolean config section "addheader";
  do addinfo_ <- getboolean config section "addinfo";
  do suffix_ <- get config section "suffix";
  do themes_text <- get config section "themes";
  let sources_ := prep (Some sources_text) true in
  let themes_ := prep (Some themes_text) true in
  do excludes_text <- get_fallback config section "excludes";
  let excludes_ := prep excludes_text false in
  do files_text <- get_fallback config section "files";
  let files_ := prep files_text false in
  do theme_ <-
    match get config section "theme" with
    | Ok t => Ok (Some t)
    | Raise (NoOptionError _) => Ok None
    | Raise e => Raise e
    end;
  Ok {| name := name_; target := target_; sources := sources_;
        addheader := addheader_; addinfo := addinfo_; suffix := suffix_;
        themes := themes_; excludes := excludes_; files := files_;
        theme := theme_; watchPaths := themes_ ++ sources_;
        lastFilename := None; lastBuild := None |}.
End with_environment.

(** [Path.__lt__] on pure POSIX paths compares the lists of parts. *)
Definition parts (p : Path) : list string :=
  match p with
  | String "/" r =>
      "/" :: List.filter (fun s => negb (bool_decide (s = EmptyString)))
               (Py.split r "/")
  | _ => Py.split p "/"
  end.

Fixpoint parts_ltb (a b : list string) : bool :=
  match a, b with
  | _, [] => false
  | [], _ :: _ => true
  | x :: a', y :: b' =>
      if String.ltb x y then true
      else if String.eqb x y then parts_ltb a' b'
      else false
  end.

(** [sorted] on paths: a stable insertion. *)
Fixpoint insert_sorted (p : Path) (l : list Path) : list Path :=
  match l with
  | [] => [p]
  | q :: l' =>
      if parts_ltb (parts p) (parts q) then p :: l
      else q :: insert_sorted p l'
  end.

Definition sorted (l : list Path) : list Path :=
  foldr insert_sorted [] l.

Section with_filesystem.
(** The directory listings and file contents a build reads, and the
    text [time.asctime()] returns. The listings and contents are those of
    directories that exist and of files that can be read: a listing, a
    read or the write of the target that fails ends the call in the
    [OSError] of [pathlib], which is no result of these definitions. *)
Variable iterdir : Path -> list Path.
Variable is_file : Path -> bool.
Variable read_text : Path -> string.
Variable asctime : string.

(** The inner loop of [get_config_parts]. *)
Definition config_part (self : BuildDef) (sp : Path) : bool :=
  if negb (is_file sp) then false
  else if bool_decide (PathLib.name sp ∈ excludes self) then false
  else if bool_decide (PathLib.suffix sp ≠ suffix self) then false
  else if bool_decide (PathLib.name sp ∈ excludes self) then false
  else match files self with
       | _ :: _ => bool_decide (PathLib.name sp ∈ files self)
       | [] => true
       end.

Definition get_config_parts (self : BuildDef) : list Path :=
  sorted
    (List.flat_map
       (fun sourcePath => List.filter (config_part self) (iterdir sourcePath))
       (sources self)).

(** [get_theme] for [self.theme = thm]. *)
Definition get_theme (self : BuildDef) (thm : string) : Result string :=
  let themePaths :=
    List.flat_map
      (fun themePath =>
         List.filter
           (fun tp => is_file tp && bool_decide (PathLib.name tp = thm))
           (iterdir themePath))
      (themes self) in
  match themePaths with
  | [] => Raise (BuildDefError ("no content found for theme " +:+ thm))
  | _ => Ok (Py.join (String Py.LF EmptyString) (read_text <$> themePaths))
  end.

(** ["#" * n] *)
Fixpoint hashes (n : nat) : string :=
  match n with
  | O => EmptyString
  | S k => String "#" (hashes k)
  end.

(** [build]: the text written to [self.target]. *)
Definition build (self : BuildDef) : Result string :=
  let out :=
    if addheader self then
      let msg := "# " +:+ name self +:+ " (i3configger: " +:+ asctime
                 +:+ ") #" in
      let sep := hashes (String.length msg) in
      [sep +:+ String Py.LF EmptyString +:+ msg
       +:+ String Py.LF EmptyString +:+ sep]
    else [] in
  do out <-
    match theme self with
    | None | Some EmptyString => Ok out
    | Some thm => do t <- get_theme self thm; Ok (out ++ [t])
    end;
  let contents :=
    (fun filePath =>
       let content := read_text filePath in
       if addinfo self
       then "### " +:+ filePath +:+ " ###" +:+ String Py.LF EmptyString
            +:+ content
       else content)
    <$> get_config_parts self in
  Ok (Py.join (String Py.LF EmptyString) (out ++ contents)).
End with_filesystem.

End lib.


(** ** Concrete fragments, states and configurations *)

Module examples.
Import partials config lib.

Definition LF : string := String Py.LF EmptyString.

Definition base : Partial :=
  {| path := "/cfg/base.conf";
     _raw := "bindsym $mod+Return exec xterm # terminal" +:+ LF |}.


Definition scheme_dark : Partial :=
  {| path := "/cfg/scheme.dark.conf"; _raw := "set $bg #000000" +:+ LF |}.

Definition scheme_default : Partial :=
  {| path := "/cfg/scheme.default.conf"; _raw := "set $bg #777777" +:+ LF |}.

Definition scheme_light : Partial :=
  {| path := "/cfg/scheme.light.conf"; _raw := "set $bg #ffffff" +:+ LF |}.

Definition want_light : gmap string string := {[ "scheme" := "light" ]}.



Definition dark_selected : StateDoc :=
  {| state_select := {[ "scheme" := "dark" ]}; state_set := ∅ |}.

Definition nothing_set : StateDoc :=
  {| state_select := ∅; state_set := ∅ |}.

(** A build definition section that gives both [files] and [excludes]. *)
Definition both_filters : Config :=
  {[ "builddef:main" :=
       {[ "target" := "/out/config"; "sources" := "/cfg";
          "addheader" := "no"; "addinfo" := "no"; "suffix" := ".conf";
          "themes" := "/themes";
          "excludes" := "base.conf"; "files" := "scheme.dark.conf" ]} ]}.

Definition both_filters_def : BuildDef :=
  {| name := "main"; target := "/out/config"; sources := ["/cfg"];
     addheader := false; addinfo := false; suffix := ".conf";
     themes := ["/themes"]; excludes := ["base.conf"];
     files := ["scheme.dark.conf"]; theme := None;
     watchPaths := ["/themes"; "/cfg"];
     lastFilename := None; lastBuild := None |}.

(** A build definition whose theme is a file of its theme directory. *)
Definition themed_def : BuildDef :=
  {| name := "main"; target := "/out/config"; sources := [];
     addheader := false; addinfo := false; suffix := ".conf";
     themes := ["/cfg"]; excludes := []; files := [];
     theme := Some "base.conf";
     watchPaths := ["/cfg"];
     lastFilename := None; lastBuild := None |}.

(** A file system with the three fragments under [/cfg]. *)
Definition cfg_iterdir (d : PathLib.Path) : list PathLib.Path :=
  if String.eqb d "/cfg"
  then [path base; path scheme_dark; path scheme_light]
  else [].

Definition cfg_read_text (p : PathLib.Path) : string :=
  if String.eqb p (path base) then _raw base
  else if String.eqb p (path scheme_dark) then _raw scheme_dark
  else if String.eqb p (path scheme_light) then _raw scheme_light
  else EmptyString.

End examples.


(** ** [partials.create] *)

Module partials_create.
Import partials.

(** [sorted(prts)]: the comparison is [__lt__], and the sort is stable: a
    partial goes before the first partial that is not smaller than it. *)
Fixpoint insert_partial (p : Partial) (l : list Partial) : list Partial :=
  match l with
  | [] => [p]
  | q :: l' => if lt q p then q :: insert_partial p l' else p :: l
  end.

Definition sorted (prts : list Partial) : list Partial :=
  foldr insert_partial [] prts.

(** [create]; [globbed] are the partials [Partial(p)] of the paths that
    [sourcePath.glob('*%s' % suffix)] yields, in the order it yields them. *)
Definition create (globbed : list Partial) : Result (list Partial) :=
  match globbed with
  | [] =>
      Raise (I3configgerException "no partials found at %s with suffix '%s'")
  | prts => Ok (sorted prts)
  end.

End partials_create.

(** ** [I3configgerConfig.populate_bar_defaults] *)

Module config_bars.

Section with_values.
(** The values of a bar setting are JSON values of any kind. *)
Context {V : Type}.

(** The inner loop: a default goes into [newBar] when its key is not in
    it. *)
Definition fill_defaults (defaults newBar : gmap string V) : gmap string V :=
  map_fold
    (fun defaultKey defaultValue newBar =>
       if bool_decide (is_Some (newBar !! defaultKey)) then newBar
       else <[defaultKey := defaultValue]> newBar)
    newBar defaults.

(** [populate_bar_defaults]; a configuration without ["defaults"] has the
    empty dict for them. *)
Definition populate_bar_defaults (bars : gmap string (gmap string V))
  : gmap string (gmap string V) :=
  let defaults := default ∅ (bars !! "defaults") in
  map_fold
    (fun name bar resolvedBars =>
       if bool_decide (name = "defaults") then resolvedBars
       else <[name := fill_defaults defaults bar]> resolvedBars)
    ∅ bars.
End with_values.

End config_bars.

(** ** [i3configger/utils.py]: [get_selector_map] *)

Module utils.

(** How a call ends: it returns, it raises, or [parser.error] ends the
    process with the message. *)
Inductive Outcome : Type :=
| Returned (selectorMap : gmap string string)
| Raised (e : Exn)
| Exited (message : string).

Definition marker : string := "--select-".
Definition markerLen : nat := String.length marker.

(** [s[n:]] *)
Fixpoint slice_from (n : nat) (s : string) : string :=
  match n, s with
  | O, _ => s
  | S k, String _ r => slice_from k r
  | S _, EmptyString => EmptyString
  end.

(** The loop over [argv]: [selectorMap] and [leftovers] when it ends, or
    the [ValueError] of the assignment [key, value = ...]. After an
    argument is put aside nothing skips the rest of the turn. *)
Fixpoint selector_loop (argv : list string)
    (selectorMap : gmap string string) (leftovers : list string)
  : Result (gmap string string * list string) :=
  match argv with
  | [] => Ok (selectorMap, leftovers)
  | arg :: rest =>
      let leftovers :=
        if negb (Py.startswith arg marker) || negb (Py.contains "=" arg)
        then leftovers ++ [arg] else leftovers in
      match Py.split (slice_from markerLen arg) "=" with
      | [key; value] =>
          selector_loop rest (<[key := value]> selectorMap) leftovers
      | [_] => Raise (ValueError "not enough values to unpack (expected 2, got 1)")
      | _ => Raise (ValueError "too many values to unpack (expected 2)")
      end
  end.

Definition hint : string :=
  "hint: selectorMap must use the form: --select-<key>=<value>".

(** [get_selector_map]; [parser] is an [argparse] parser, whose [error]
    prints the message and exits. *)
Definition get_selector_map (argv : list string) : Outcome :=
  match selector_loop argv ∅ [] with
  | Raise e => Raised e
  | Ok (selectorMap, []) => Returned selectorMap
  | Ok (_, _ :: _) =>
      Exited ("unrecognized arguments: " +:+ Py.join "; " argv
              +:+ String Py.LF EmptyString +:+ hint)
  end.

End utils.


(** * Properties

    Each module below first proves what its functions do in general and
    then settles the statements about them. *)


(** ** The selection engine *)

Module select_facts.
Import partials partials_spec.
Import examples.

Lemma conditional_key_value p :
  conditional p = true → ∃ k v, key p = Some k ∧ value p = Some v.
Proof.
  unfold key, value, conditional. intros H. rewrite H.
  destruct (selectors p) as [|k [|v l]]; simpl in *; try discriminate.
  eauto.
Qed.


Lemma unconditional_key p : conditional p = false → key p = None.
Proof. unfold key. by intros ->. Qed.

(** [_select] and the loop only ever append to [selected]. *)
Lemma _select_acc p cur acc :
  _select p (cur, acc) = ((_select p (cur, [])).1, acc ++ (_select p (cur, [])).2).
Proof.
  unfold _select. destruct (key p); [case_bool_decide|]; done.
Qed.

Lemma select_step_acc ex c d p cur acc :
  select_step ex c d p (cur, acc)
  = ((select_step ex c d p (cur, [])).1,
     acc ++ (select_step ex c d p (cur, [])).2).
Proof.
  unfold select_step. cbn [fst].
  repeat match goal with
         | |- context [if ?b then _ else _] => destruct b
         end;
    first [apply _select_acc | cbn [fst snd]; by rewrite app_nil_r].
Qed.

Lemma select_loop_acc F ex c d cur acc :
  select_loop F ex c d (cur, acc)
  = ((select_loop F ex c d (cur, [])).1,
     acc ++ (select_loop F ex c d (cur, [])).2).
Proof.
  revert cur acc. induction F as [|p F IH]; intros cur acc; simpl.
  - by rewrite app_nil_r.
  - rewrite (select_step_acc ex c d p cur acc).
    destruct (select_step ex c d p (cur, [])) as [cur1 acc1]. simpl.
    rewrite (IH cur1 (acc ++ acc1)), (IH cur1 acc1). simpl.
    by rewrite app_assoc.
Qed.

Lemma select_loop_cons p F ex c d cur :
  select_loop (p :: F) ex c d (cur, [])
  = ((select_loop F ex c d ((select_step ex c d p (cur, [])).1, [])).1,
     (select_step ex c d p (cur, [])).2
     ++ (select_loop F ex c d ((select_step ex c d p (cur, [])).1, [])).2).
Proof.
  simpl. destruct (select_step ex c d p (cur, [])) as [cur1 acc1].
  by rewrite select_loop_acc.
Qed.

(** What one turn does: the partial is appended or not, and at most its
    own key leaves the selector. *)
Lemma select_step_cases ex c d p cur :
  select_step ex c d p (cur, []) = (cur, [])
  ∨ select_step ex c d p (cur, []) = (cur, [p])
    ∧ (∀ k, key p = Some k → cur !! k = None)
  ∨ ∃ k, key p = Some k ∧ is_Some (cur !! k)
         ∧ select_step ex c d p (cur, []) = (delete k cur, [p]).
Proof.
  unfold select_step, _select. simpl.
  destruct (conditional p) eqn:Hc.
  - destruct (excluded ex p); [by left|].
    destruct (key p) as [k|] eqn:Hk.
    + destruct (selected_by cur p).
      * case_bool_decide as Hin; [right; right; eauto|].
        right; left. split; [done|]. intros k' [= <-].
        by apply eq_None_not_Some.
      * destruct (d && isDefault p); [|by left].
        case_bool_decide as Hin; [right; right; eauto|].
        right; left. split; [done|]. intros k' [= <-].
        by apply eq_None_not_Some.
    + destruct (selected_by cur p); [right; left; done|].
      destruct (d && isDefault p); [right; left; done|by left].
  - rewrite (unconditional_key p Hc).
    destruct c; [right; left; done|by left].
Qed.

Lemma select_loop_sublist F ex c d cur :
  (select_loop F ex c d (cur, [])).2 `sublist_of` F.
Proof.
  revert cur. induction F as [|p F IH]; intros cur; [done|].
  rewrite select_loop_cons. simpl.
  destruct (select_step_cases ex c d p cur) as [->|[[-> _]|(k&_&_&->)]]; simpl.
  - by apply sublist_cons.
  - by apply sublist_skip.
  - by apply sublist_skip.
Qed.

Lemma select_loop_empty F ex c d :
  (select_loop F ex c d (∅, [])).1 = ∅.
Proof.
  induction F as [|p F IH]; [done|].
  rewrite select_loop_cons. simpl.
  destruct (select_step_cases ex c d p ∅) as [->|[[-> _]|(k&_&[v Hv]&_)]];
    simpl; done.
Qed.

(** A key of the selector stays in it when the fragments with that key
    are excluded, or have another value and are not selected as defaults:
    [select] then raises, and the exception carries the key. *)
Lemma select_step_keeps ex c d p cur k v :
  cur !! k = Some v →
  (key p = Some k →
   excluded ex p = true ∨ (value p ≠ Some v ∧ d && isDefault p = false)) →
  (select_step ex c d p (cur, [])).1 !! k = Some v.
Proof.
  intros Hcur Hp. unfold select_step, _select. cbn [fst].
  destruct (conditional p) eqn:Hc.
  - destruct (excluded ex p) eqn:He; [done|].
    destruct (key p) as [k0|] eqn:Hk0.
    + destruct (decide (k0 = k)) as [->|Hne].
      * destruct (Hp eq_refl) as [?|[Hv Hd]]; [done|].
        unfold selected_by. rewrite Hk0, Hd.
        rewrite (bool_decide_false (value p = cur !! k)) by congruence.
        by rewrite andb_false_r.
      * destruct (selected_by cur p), (d && isDefault p);
          try case_bool_decide; simpl; by rewrite ?lookup_delete_ne.
    + by destruct (selected_by cur p), (d && isDefault p).
  - rewrite (unconditional_key p Hc). by destruct c.
Qed.

Lemma select_raises_for_unserved_key F S ex c d k v :
  S !! k = Some v →
  (∀ p, p ∈ F → key p = Some k →
        excluded ex p = true
        ∨ (value p ≠ Some v ∧ d && isDefault p = false)) →
  ∃ S', select F S ex c d
        = (Raise (ConfigError "not all selector processed: %s" S'), S')
        ∧ S' !! k = Some v.
Proof.
  intros HS HF.
  assert ((select_loop F ex c d (S, [])).1 !! k = Some v) as Hk.
  { revert S HS. induction F as [|p F IH]; intros S HS; [done|].
    rewrite select_loop_cons. cbn [fst]. apply IH.
    - intros q Hq. apply HF. by right.
    - apply select_step_keeps; [done|]. apply HF. by left. }
  unfold select. destruct (select_loop F ex c d (S, [])) as [S' l].
  simpl in Hk. exists S'. split; [|done].
  rewrite bool_decide_true; [done|].
  intros ->. by rewrite lookup_empty in Hk.
Qed.

(** *** The statements about [select] *)

(** C2, as amended. [select] deletes the keys it consumes from the dict it
    is given: when a call returns, that dict is empty. A second call that
    passes the same dict therefore runs on the empty map and returns what
    [select] returns for the empty map, which is also what every later
    call returns. *)
Theorem select_consumes_selector
    (F : list Partial) (sel : gmap string string) (ex : option (list string))
    (c d : bool) (r1 : Selected) (sel1 : gmap string string) :
  select F sel ex c d = (Ok r1, sel1) →
  sel1 = ∅
  ∧ ∃ r2, select_twice F sel ex c d = (Ok r1, Ok r2, ∅)
          ∧ select F ∅ ex c d = (Ok r2, ∅).
Proof.
  intros Hsel.
  assert (sel1 = ∅) as ->.
  { unfold select in Hsel.
    destruct (select_loop F ex c d (sel, [])) as [S' l].
    case_bool_decide as Hne; [done|].
    injection Hsel as _ <-.
    destruct (decide (S' = ∅)) as [?|Hn]; [done|by destruct Hne]. }
  split; [done|].
  assert (∃ r2, select F ∅ ex c d = (Ok r2, ∅)) as [r2 Hr2].
  { unfold select. pose proof (select_loop_empty F ex c d) as He.
    destruct (select_loop F ex c d (∅, [])) as [S' l]. simpl in He. subst S'.
    rewrite bool_decide_false by (by intros []). eauto. }
  exists r2. split; [|done].
  unfold select_twice. by rewrite Hsel, Hr2.
Qed.

Lemma select_consumes_selector_witness :
  select [base; scheme_light] want_light None true true
  = (Ok (Listed [base; scheme_light]), ∅)
  ∧ (∅ : gmap string string) = ∅
  ∧ ∃ r2, select_twice [base; scheme_light] want_light None true true
          = (Ok (Listed [base; scheme_light]), Ok r2, ∅)
          ∧ select [base; scheme_light] ∅ None true true = (Ok r2, ∅).
Proof.
  assert (select [base; scheme_light] want_light None true true
          = (Ok (Listed [base; scheme_light]), ∅)) as H by (by vm_compute).
  split; [exact H|].
  exact (select_consumes_selector _ _ _ _ _ _ _ H).
Defined.

(** C2, as stated, fails: the first call empties the caller's map, and the
    second call with the same map returns another result. *)
Lemma select_twice_differs :
  select_twice [base; scheme_light] want_light None true true
  = (Ok (Listed [base; scheme_light]), Ok (Bare base), ∅)
  ∧ (select [base; scheme_light] want_light None true true).2 ≠ want_light.
Proof. split; by vm_compute. Qed.

(** C3 is not met by the code. The map asks for [scheme.light], no
    fragment has that key and value, and [select] returns the default
    fragment of the key without raising; the entry is gone from the map. *)
Theorem select_default_swallows_unmatched_key :
  (∀ p, p ∈ [base; scheme_default] →
        ¬ (key p = Some "scheme" ∧ value p = Some "light"))
  ∧ select [base; scheme_default] want_light None true true
    = (Ok (Listed [base; scheme_default]), ∅).
Proof.
  split; [|by vm_compute].
  intros p Hp [_ Hv]. rewrite !elem_of_cons, elem_of_nil in Hp.
  destruct Hp as [->|[->|[]]]; by vm_compute in Hv.
Qed.

(** C8, as amended. When [select] succeeds, the selected fragments are a
    sub-list of the input in its order; they are returned as a list unless
    exactly one fragment was selected, and then the result is that bare
    fragment. *)
Theorem select_result_shape
    (F : list Partial) (sel : gmap string string) (ex : option (list string))
    (c d : bool) (r : Selected) (sel' : gmap string string) :
  select F sel ex c d = (Ok r, sel') →
  ∃ selected,
    selected `sublist_of` F
    ∧ ((∃ p, selected = [p] ∧ r = Bare p)
       ∨ (List.length selected ≠ 1 ∧ r = Listed selected)).
Proof.
  unfold select. pose proof (select_loop_sublist F ex c d sel) as Hsub.
  destruct (select_loop F ex c d (sel, [])) as [sel1 l]. simpl in Hsub.
  case_bool_decide; [done|]. intros [= <- _].
  exists l. split; [done|].
  destruct l as [|p [|q l]]; simpl; [right|left|right]; eauto.
Qed.

Lemma select_result_shape_witness :
  select [base; scheme_dark] ∅ None true true = (Ok (Bare base), ∅)
  ∧ ∃ selected,
      selected `sublist_of` [base; scheme_dark]
      ∧ ((∃ p, selected = [p] ∧ Bare base = Bare p)
         ∨ (List.length selected ≠ 1 ∧ Bare base = Listed selected)).
Proof.
  assert (select [base; scheme_dark] ∅ None true true
          = (Ok (Bare base), ∅)) as H by (by vm_compute).
  split; [exact H|].
  exact (select_result_shape _ _ _ _ _ _ _ H).
Defined.

(** C8, as stated, fails: one selected fragment comes back bare, not as a
    list of one element. *)
Lemma select_single_is_bare :
  select [base] ∅ None true true = (Ok (Bare base), ∅)
  ∧ Bare base ≠ Listed [base].
Proof. split; by vm_compute. Qed.

End select_facts.


(** ** The views of a fragment *)

Module display_facts.
Import partials partials_spec.
Import examples.

Lemma filtered_lines_filter SET_MARK lines :
  filtered_lines SET_MARK lines = filter (kept_by_filtered SET_MARK) lines.
Proof.
  induction lines as [|line lines IH]; [done|].
  simpl. rewrite filter_cons, IH.
  destruct (decide (kept_by_filtered SET_MARK line)) as [(Hb & Hs & Hc)|Hn].
  - by rewrite (bool_decide_false _ Hb), Hs, Hc.
  - case_bool_decide as Hb; [done|].
    destruct (Py.startswith (Py.strip line) SET_MARK) eqn:Hs; [done|].
    destruct (Py.startswith (Py.strip line) COMMENT_MARK) eqn:Hc; [done|].
    by destruct Hn.
Qed.

Lemma payload_lines_filter lines :
  payload_lines lines
  = (λ line, Py.rsplit1_head line END_OF_LINE_COMMENT_MARK)
    <$> filter kept_by_payload lines.
Proof.
  induction lines as [|line lines IH]; [done|].
  simpl. rewrite filter_cons, IH.
  destruct (decide (kept_by_payload line)) as [(Hb & Hc)|Hn].
  - by rewrite (bool_decide_false _ Hb), Hc.
  - case_bool_decide as Hb; [done|].
    destruct (Py.startswith (Py.strip line) COMMENT_MARK) eqn:Hc; [done|].
    by destruct Hn.
Qed.

Lemma banner_not_empty nm text : banner nm text ≠ EmptyString.
Proof. done. Qed.

(** Where no kept line starts with the set mark or holds an end-of-line
    comment, the two views are the same text. *)
Lemma filtered_is_payload SET_MARK p :
  (∀ line, line ∈ Py.splitlines (_joined p) → kept_by_payload line →
           Py.startswith (Py.strip line) SET_MARK = false
           ∧ Py.rsplit1_head line END_OF_LINE_COMMENT_MARK = line) →
  filtered SET_MARK p = payload p.
Proof.
  intros Hlines. unfold filtered, payload. f_equal.
  rewrite filtered_lines_filter, payload_lines_filter.
  induction (Py.splitlines (_joined p)) as [|line lines IH]; [done|].
  rewrite !filter_cons.
  destruct (decide (kept_by_payload line)) as [Hk|Hk].
  - destruct (Hlines line (list_elem_of_here _ _) Hk) as [Hs Hr].
    destruct Hk as [Hb Hc].
    rewrite decide_True by done. rewrite fmap_cons, Hr. f_equal.
    apply IH. intros l Hl. apply Hlines. by right.
  - rewrite decide_False.
    + apply IH. intros l Hl. apply Hlines. by right.
    + intros (Hb & _ & Hc). by apply Hk.
Qed.

(** C9, as amended. [display] is built from the [filtered] view, not from
    the payload: the lines of the joined text without the blank lines, the
    comment lines and the lines that start with the set mark, end-of-line
    comments kept. When that view is not empty, [display] is the view
    wrapped in the banner that names the file, and [display] is the empty
    string exactly when the view is empty. *)
Theorem display_wraps_filtered (SET_MARK : string) (p : Partial) :
  filtered SET_MARK p
  = Py.join (String Py.LF EmptyString)
      (filter (kept_by_filtered SET_MARK) (Py.splitlines (_joined p)))
  ∧ (filtered SET_MARK p ≠ EmptyString →
     display SET_MARK p
     = "### " +:+ name p +:+ " ###" +:+ String Py.LF EmptyString
       +:+ filtered SET_MARK p +:+ String Py.LF (String Py.LF EmptyString))
  ∧ (display SET_MARK p = EmptyString ↔ filtered SET_MARK p = EmptyString).
Proof.
  split_and!.
  - unfold filtered. by rewrite filtered_lines_filter.
  - intros Hne. unfold display. by rewrite (bool_decide_false _ Hne).
  - unfold display. case_bool_decide as He; [done|].
    split; [|done]. intros Hb. by apply banner_not_empty in Hb.
Qed.

Lemma display_wraps_filtered_witness :
  filtered "set" base = "bindsym $mod+Return exec xterm # terminal"
  ∧ display "set" base
    = "### base.conf ###" +:+ LF
      +:+ "bindsym $mod+Return exec xterm # terminal" +:+ LF +:+ LF.
Proof.
  assert (filtered "set" base = "bindsym $mod+Return exec xterm # terminal")
    as Hf by (by vm_compute).
  split; [exact Hf|].
  destruct (display_wraps_filtered "set" base) as (_ & Hd & _).
  rewrite Hd; [by vm_compute|]. by rewrite Hf.
Defined.

(** C9, as stated, fails: the payload of [base.conf] has lost the
    end-of-line comment, and [display] is not that payload in the banner,
    whatever the set mark is. *)
Lemma display_is_not_wrapped_payload :
  payload base = "bindsym $mod+Return exec xterm"
  ∧ ∀ SET_MARK, display SET_MARK base ≠ banner (name base) (payload base).
Proof.
  split; [by vm_compute|]. intros SET_MARK.
  assert (Py.splitlines (_joined base)
          = ["bindsym $mod+Return exec xterm # terminal"]) as Hl
      by (by vm_compute).
  unfold display, filtered. rewrite Hl. cbn [filtered_lines].
  change (Py.strip "bindsym $mod+Return exec xterm # terminal")
    with "bindsym $mod+Return exec xterm # terminal".
  rewrite (bool_decide_false
             ("bindsym $mod+Return exec xterm # terminal" = EmptyString))
    by done.
  destruct (Py.startswith _ SET_MARK); by vm_compute.
Qed.

End display_facts.


(** ** The state commands *)

Module state_facts.
Import partials config.
Import examples.

Section helpers.
Context {A : Type} `{EqDecision A}.
Implicit Types (c x : A) (items : list A).

Lemma index_Ok items c i :
  Py.index items c = Ok i →
  ∃ n, i = Z.of_nat n ∧ items !! n = Some c.
Proof.
  unfold Py.index.
  destruct (list_find _ items) as [[n y]|] eqn:Hf; [|done].
  intros [= <-]. apply list_find_Some in Hf as (Hn & -> & _). eauto.
Qed.

Lemma index_elem items c : c ∈ items → ∃ i, Py.index items c = Ok i.
Proof.
  intros Hc. unfold Py.index.
  destruct (list_find_elem_of (λ y, y = c) items c Hc eq_refl)
    as [[n y] ->]. eauto.
Qed.

Lemma index_not_elem items c :
  c ∉ items → Py.index items c = Raise (ValueError "x is not in list").
Proof.
  intros Hc. unfold Py.index.
  destruct (list_find _ items) as [[n y]|] eqn:Hf; [|done].
  apply list_find_Some in Hf as (Hn & -> & _).
  exfalso. apply Hc. by eapply list_elem_of_lookup_2.
Qed.

Lemma index_NoDup items c n :
  NoDup items → items !! n = Some c →
  Py.index items c = Ok (Z.of_nat n).
Proof.
  intros Hnd Hn. unfold Py.index.
  destruct (list_find _ items) as [[m y]|] eqn:Hf.
  - apply list_find_Some in Hf as (Hm & -> & _).
    by rewrite (NoDup_lookup items m n c Hnd Hm Hn).
  - apply list_find_None in Hf.
    exfalso. eapply Forall_lookup_1 in Hf; [|done]. by apply Hf.
Qed.

Lemma getitem_nat items n x :
  items !! n = Some x → Py.getitem items (Z.of_nat n) = Ok x.
Proof.
  intros Hn. pose proof (lookup_lt_Some _ _ _ Hn) as Hlt.
  unfold Py.getitem.
  destruct (Z.ltb_spec (Z.of_nat n) 0); [lia|].
  destruct (Z.leb_spec 0 (Z.of_nat n)); [|lia].
  destruct (Z.ltb_spec (Z.of_nat n) (Z.of_nat (List.length items)));
    [|lia].
  simpl. by rewrite Nat2Z.id, Hn.
Qed.

Lemma getitem_beyond items n :
  List.length items ≤ n →
  Py.getitem items (Z.of_nat n)
  = Raise (IndexError "list index out of range").
Proof.
  intros Hn. unfold Py.getitem.
  destruct (Z.ltb_spec (Z.of_nat n) 0); [lia|].
  destruct (Z.leb_spec 0 (Z.of_nat n)); [|lia].
  destruct (Z.ltb_spec (Z.of_nat n) (Z.of_nat (List.length items)));
    [lia|done].
Qed.

Lemma getitem_minus_one items x :
  items !! (List.length items - 1) = Some x →
  Py.getitem items (-1) = Ok x.
Proof.
  intros Hn. pose proof (lookup_lt_Some _ _ _ Hn) as Hlt.
  unfold Py.getitem. simpl.
  destruct (Z.leb_spec 0 (Z.of_nat (List.length items) + -1)); [|lia].
  destruct (Z.ltb_spec (Z.of_nat (List.length items) + -1)
              (Z.of_nat (List.length items))); [|lia].
  simpl.
  replace (Z.to_nat (Z.of_nat (List.length items) + -1))
    with (List.length items - 1) by lia.
  by rewrite Hn.
Qed.

(** [_next] at position [n]: the element after it, the first element
    past the end. *)
Lemma _next_at items c n :
  Py.index items c = Ok (Z.of_nat n) →
  _next c items
  = Py.getitem items
      (if decide (S n < List.length items) then Z.of_nat (S n) else 0).
Proof.
  intros Hi. unfold _next. rewrite Hi. simpl.
  replace (Z.of_nat n + 1)%Z with (Z.of_nat (S n)) by lia.
  case_decide as Hlt.
  - destruct (lookup_lt_is_Some_2 items (S n) Hlt) as [x Hx].
    by rewrite (getitem_nat items (S n) x Hx).
  - rewrite getitem_beyond by lia. done.
Qed.

(** [_previous] at position [n]: the element before it; at position 0
    the index -1 is the last element, no [IndexError] is raised. *)
Lemma _previous_at items c n :
  Py.index items c = Ok (Z.of_nat n) →
  _previous c items
  = Py.getitem items (Z.of_nat n - 1).
Proof.
  intros Hi. destruct (index_Ok items c _ Hi) as (m & Hm & Hc).
  apply Nat2Z.inj in Hm as <-.
  pose proof (lookup_lt_Some _ _ _ Hc) as Hlt.
  unfold _previous. rewrite Hi. simpl.
  destruct n as [|n].
  - change (Z.of_nat 0 - 1)%Z with (-1)%Z.
    destruct (lookup_lt_is_Some_2 items (List.length items - 1)) as [x Hx];
      [lia|].
    by rewrite !(getitem_minus_one items x Hx).
  - replace (Z.of_nat (S n) - 1)%Z with (Z.of_nat n) by lia.
    destruct (lookup_lt_is_Some_2 items n) as [x Hx]; [lia|].
    by rewrite !(getitem_nat items n x Hx).
Qed.

Lemma _next_total items c : c ∈ items → ∃ x, _next c items = Ok x ∧ x ∈ items.
Proof.
  intros Hc. destruct (index_elem items c Hc) as [i Hi].
  destruct (index_Ok items c i Hi) as (n & -> & Hn).
  pose proof (lookup_lt_Some _ _ _ Hn) as Hlt.
  rewrite (_next_at items c n Hi). case_decide as Hlt'.
  - destruct (lookup_lt_is_Some_2 items (S n) Hlt') as [x Hx].
    exists x. split; [by apply getitem_nat|by eapply list_elem_of_lookup_2].
  - destruct (lookup_lt_is_Some_2 items 0) as [x Hx]; [lia|].
    exists x. split; [by apply (getitem_nat items 0)|by eapply list_elem_of_lookup_2].
Qed.

Lemma _previous_total items c :
  c ∈ items → ∃ x, _previous c items = Ok x ∧ x ∈ items.
Proof.
  intros Hc. destruct (index_elem items c Hc) as [i Hi].
  destruct (index_Ok items c i Hi) as (n & -> & Hn).
  pose proof (lookup_lt_Some _ _ _ Hn) as Hlt.
  rewrite (_previous_at items c n Hi). destruct n as [|n].
  - destruct (lookup_lt_is_Some_2 items (List.length items - 1)) as [x Hx];
      [lia|].
    exists x. split; [by apply getitem_minus_one|by eapply list_elem_of_lookup_2].
  - replace (Z.of_nat (S n) - 1)%Z with (Z.of_nat n) by lia.
    destruct (lookup_lt_is_Some_2 items n) as [x Hx]; [lia|].
    exists x. split; [by apply getitem_nat|by eapply list_elem_of_lookup_2].
Qed.

Lemma _next_missing items c :
  c ∉ items → _next c items = Raise (ValueError "x is not in list").
Proof. intros Hc. unfold _next. by rewrite index_not_elem. Qed.

Lemma _previous_missing items c :
  c ∉ items → _previous c items = Raise (ValueError "x is not in list").
Proof. intros Hc. unfold _previous. by rewrite index_not_elem. Qed.

(** On a list without repetition the two helpers undo each other, the
    wrap-around at both ends included. *)
Lemma _previous_next items c :
  NoDup items → c ∈ items →
  ∃ x, _next c items = Ok x ∧ _previous x items = Ok c.
Proof.
  intros Hnd Hc. destruct (index_elem items c Hc) as [i Hi].
  destruct (index_Ok items c i Hi) as (n & -> & Hn).
  pose proof (lookup_lt_Some _ _ _ Hn) as Hlt.
  rewrite (_next_at items c n Hi). case_decide as Hlt'.
  - destruct (lookup_lt_is_Some_2 items (S n) Hlt') as [x Hx].
    exists x. split; [by apply getitem_nat|].
    rewrite (_previous_at items x (S n)) by by apply index_NoDup.
    replace (Z.of_nat (S n) - 1)%Z with (Z.of_nat n) by lia.
    by apply getitem_nat.
  - destruct (lookup_lt_is_Some_2 items 0) as [x Hx]; [lia|].
    exists x. split; [by apply (getitem_nat items 0)|].
    rewrite (_previous_at items x 0) by by apply index_NoDup.
    apply getitem_minus_one.
    by replace (List.length items - 1) with n by lia.
Qed.

Lemma _next_previous items c :
  NoDup items → c ∈ items →
  ∃ x, _previous c items = Ok x ∧ _next x items = Ok c.
Proof.
  intros Hnd Hc. destruct (index_elem items c Hc) as [i Hi].
  destruct (index_Ok items c i Hi) as (n & -> & Hn).
  pose proof (lookup_lt_Some _ _ _ Hn) as Hlt.
  rewrite (_previous_at items c n Hi). destruct n as [|n].
  - destruct (lookup_lt_is_Some_2 items (List.length items - 1)) as [x Hx];
      [lia|].
    exists x. split; [by apply getitem_minus_one|].
    rewrite (_next_at items x (List.length items - 1))
      by by apply index_NoDup.
    rewrite decide_False by lia. by apply (getitem_nat items 0).
  - replace (Z.of_nat (S n) - 1)%Z with (Z.of_nat n) by lia.
    destruct (lookup_lt_is_Some_2 items n) as [x Hx]; [lia|].
    exists x. split; [by apply getitem_nat|].
    rewrite (_next_at items x n) by by apply index_NoDup.
    rewrite decide_True by lia. by apply getitem_nat.
Qed.
(** The wrap-around by itself: past the last element comes the first,
    before the first comes the last. *)
Lemma _next_wraps items x y :
  NoDup items → last items = Some x → head items = Some y →
  _next x items = Ok y.
Proof.
  intros Hnd Hx Hy. rewrite last_lookup in Hx. rewrite head_lookup in Hy.
  pose proof (lookup_lt_Some _ _ _ Hx) as Hlt.
  rewrite (_next_at items x (pred (List.length items)))
    by by apply index_NoDup.
  rewrite decide_False by lia. by apply (getitem_nat items 0).
Qed.

Lemma _previous_wraps items x y :
  NoDup items → head items = Some x → last items = Some y →
  _previous x items = Ok y.
Proof.
  intros Hnd Hx Hy. rewrite last_lookup in Hy. rewrite head_lookup in Hx.
  rewrite (_previous_at items x 0) by by apply index_NoDup.
  apply getitem_minus_one.
  by replace (List.length items - 1) with (pred (List.length items)) by lia.
Qed.
End helpers.

(** What the [set] command does when the dispatch reaches it and the key
    is there to delete, or a value is given. *)
Lemma set_stores_value state prts k v :
  Py.lower v ≠ DEL →
  process (Some state) prts (Some (SET, [k; v]))
  = (Ok None,
     Some {| state_select := state_select state;
             state_set := <[k := v]> (state_set state) |}).
Proof.
  intros Hv. unfold process, apply_command. simpl.
  by rewrite (bool_decide_false _ Hv).
Qed.

Lemma set_del_removes_present_key state prts k v old :
  Py.lower v = DEL →
  state_set state !! k = Some old →
  process (Some state) prts (Some (SET, [k; v]))
  = (Ok None,
     Some {| state_select := state_select state;
             state_set := delete k (state_set state) |}).
Proof.
  intros Hv Hk. unfold process, apply_command. simpl.
  by rewrite (bool_decide_true _ Hv), Hk.
Qed.

(** The command given by its name, as the text ["set"], equals none of
    the tuples the dispatch compares with: the state is written back as
    it was read. *)
Lemma named_command_changes_nothing state prts nm args k :
  process (Some state) prts (Some (Name nm, k :: args))
  = (Ok None, Some state).
Proof. done. Qed.

(** C4 is not met by the code. Deleting a key that the [set]
    namespace does not hold raises [KeyError]; the state file keeps its
    content. *)
Theorem set_del_absent_key_raises
    (state : StateDoc) (prts : list Partial) (k v : string) :
  Py.lower v = DEL →
  state_set state !! k = None →
  process (Some state) prts (Some (SET, [k; v]))
  = (Raise (KeyError k), Some state).
Proof.
  intros Hv Hk. unfold process, apply_command. simpl.
  by rewrite (bool_decide_true _ Hv), Hk.
Qed.

Lemma set_del_absent_key_raises_witness :
  Py.lower "Del" = DEL
  ∧ state_set nothing_set !! "font" = None
  ∧ process (Some nothing_set) [base] (Some (SET, ["font"; "Del"]))
    = (Raise (KeyError "font"), Some nothing_set).
Proof.
  split; [by vm_compute|]. split; [by vm_compute|].
  apply (set_del_absent_key_raises nothing_set [base] "font" "Del");
    by vm_compute.
Defined.

(** C5 is not met by the code. [process] calls [partials.find] with the
    fragments and the key, one argument short of its three parameters:
    every [select-next] and every [select-previous] ends in that
    [TypeError], whatever the state, the fragments and the key. The state
    file keeps its content, so the selection neither advances nor comes
    back. *)
Theorem advance_raises_TypeError
    (state : StateDoc) (prts : list Partial) (k : string)
    (args : list string) :
  process (Some state) prts (Some (SELECT_NEXT, k :: args))
  = (Raise (TypeError "wrong number of positional arguments"), Some state)
  ∧ process (Some state) prts (Some (SELECT_PREVIOUS, k :: args))
    = (Raise (TypeError "wrong number of positional arguments"), Some state).
Proof. done. Qed.

(** C10 is not met by the code. The two helpers are as the claim has
    them: they return an element of the list when [current] is in it and
    raise [ValueError] from the lookup when it is not. [process] does not
    get that far: with the persisted selection [dark] and no fragment
    [scheme.dark] left, [select-next] and [select-previous] end in the
    [TypeError] of the call of [partials.find], and the state file keeps
    its content. *)
Theorem stale_selection_raises_TypeError
    {A : Type} `{EqDecision A} (current : A) (items : list A) :
  (current ∈ items → (∃ x, _next current items = Ok x ∧ x ∈ items)
                     ∧ (∃ x, _previous current items = Ok x ∧ x ∈ items))
  ∧ (current ∉ items →
     _next current items = Raise (ValueError "x is not in list")
     ∧ _previous current items = Raise (ValueError "x is not in list"))
  ∧ state_select dark_selected !! "scheme" = Some "dark"
  ∧ find [base; scheme_default; scheme_light] "scheme" "dark" = None
  ∧ process (Some dark_selected) [base; scheme_default; scheme_light]
      (Some (SELECT_NEXT, ["scheme"]))
    = (Raise (TypeError "wrong number of positional arguments"),
       Some dark_selected)
  ∧ process (Some dark_selected) [base; scheme_default; scheme_light]
      (Some (SELECT_PREVIOUS, ["scheme"]))
    = (Raise (TypeError "wrong number of positional arguments"),
       Some dark_selected).
Proof.
  split_and!; try by vm_compute.
  - intros Hc. split; [by apply _next_total|by apply _previous_total].
  - intros Hc. split; [by apply _next_missing|by apply _previous_missing].
Qed.

End state_facts.


(** ** Build definitions *)

Module build_facts.
Import lib.
Import examples.

(** [matches] compares the stem, a string, with the watched paths: it
    returns [False] whatever the path. *)
Lemma matches_returns_False self path : matches self path = Some false.
Proof.
  unfold matches. case_bool_decide; [done|].
  rewrite bool_decide_true; [done|].
  intros (w & Hw & _)%list_elem_of_fmap. discriminate.
Qed.

(** The rest of [needs_build], had [matches] returned [True]: the first
    build, another file, and the delay. *)
Lemma needs_build_after_matched self filename now :
  needs_build_after self (Some true) filename now
  = match lastBuild self with
    | None => true
    | Some t =>
        PrimFloat.eqb t 0%float
        || bool_decide (Some filename ≠ lastFilename self)
        || PrimFloat.leb BUILD_DELAY (PrimFloat.sub now t)
    end.
Proof.
  unfold needs_build_after, not_time. simpl.
  destruct (lastBuild self) as [t|]; [|done].
  destruct (PrimFloat.eqb _ _); [done|]. simpl.
  case_bool_decide; [done|]. simpl.
  by destruct (PrimFloat.leb _ _).
Qed.

Lemma getitem_raises {A} (l : list A) i e :
  Py.getitem l i = Raise e → ∃ msg, e = IndexError msg.
Proof.
  unfold Py.getitem. destruct (_ && _)%bool; [destruct (l !! _)|];
    intros [= <-]; eauto.
Qed.

(** The exceptions of the interpolation. *)
Local Abbreviation interpolation_error e :=
  ((∃ msg, e = InterpolationSyntaxError msg)
   ∨ (∃ reference, e = InterpolationMissingOptionError reference)
   ∨ e = InterpolationDepthError).

Lemma scan_raises deeper map at_ rest e :
  (∀ v e, deeper v = Raise e → interpolation_error e) →
  scan deeper map at_ rest = Raise e → interpolation_error e.
Proof.
  intros Hdeeper. revert at_.
  induction rest as [|c r IH]; intros at_; destruct at_ as [| |nm|nm];
    cbn [scan];
    try (intros [= <-]; eauto; fail).
  - destruct (Ascii.eqb_spec c "%") as [->|Hc]; [apply IH|].
    replace (match c with "%"%char => scan deeper map Percent r
                        | _ => do t <- scan deeper map Text r; Ok (String c t)
             end)
      with (do t <- scan deeper map Text r; Ok (String c t)).
    2:{ destruct c as [[] [] [] [] [] [] [] []]; try done. }
    destruct (scan deeper map Text r) eqn:Hs; [done|].
    intros [= <-]. by apply (IH Text).
  - destruct c as [[] [] [] [] [] [] [] []];
      try (intros [= <-]; eauto; fail); [|apply IH].
    destruct (scan deeper map Text r) eqn:Hs; [done|].
    intros [= <-]. by apply (IH Text).
  - destruct c as [[] [] [] [] [] [] [] []]; try apply IH.
    case_bool_decide; [intros [= <-]; eauto|apply IH].
  - destruct c as [[] [] [] [] [] [] [] []];
      try (intros [= <-]; eauto; fail).
    destruct (map !! Py.lower nm) as [v|]; [|intros [= <-]; eauto].
    destruct (if Py.contains "%" v then deeper v else Ok v) as [text|e']
      eqn:Hv; cbn [bind].
    + destruct (scan deeper map Text r) eqn:Hs; [done|].
      intros [= <-]. by apply (IH Text).
    + intros [= <-]. destruct (Py.contains "%" v); [|done].
      by apply (Hdeeper v).
Qed.

Lemma _interpolate_some_raises depth_left map rest e :
  _interpolate_some depth_left map rest = Raise e → interpolation_error e.
Proof.
  revert rest e. induction depth_left as [|deeper IH]; intros rest e.
  - intros [= <-]. eauto.
  - apply scan_raises. apply IH.
Qed.

Lemma get_raises config section opt e :
  get config section opt = Raise e →
  e = NoSectionError section ∨ e = NoOptionError (Py.lower opt)
  ∨ interpolation_error e.
Proof.
  unfold get.
  destruct (_unify_values config section) as [d|e'] eqn:Hd; cbn [bind].
  - destruct (d !! Py.lower opt); [|intros [= <-]; eauto].
    intros Hi. apply _interpolate_some_raises in Hi. eauto.
  - intros [= <-]. unfold _unify_values in Hd.
    case_bool_decide; [done|].
    destruct (config !! section); [done|]. injection Hd as <-. eauto.
Qed.

Lemma get_fallback_raises config section opt e :
  get_fallback config section opt = Raise e → interpolation_error e.
Proof.
  unfold get_fallback. destruct (_unify_values config section) as [d|]; [|done].
  destruct (d !! Py.lower opt); [|done].
  destruct (_interpolate_some _ _ _) eqn:Hi; [done|].
  intros [= <-]. by apply _interpolate_some_raises in Hi.
Qed.

Lemma getboolean_raises config section opt e :
  getboolean config section opt = Raise e →
  e = NoSectionError section ∨ e = NoOptionError (Py.lower opt)
  ∨ interpolation_error e ∨ e = ValueError "Not a boolean".
Proof.
  unfold getboolean. destruct (get config section opt) as [v|e'] eqn:Hg; simpl.
  - repeat case_bool_decide; try done. intros [= <-]. eauto.
  - intros [= <-]. apply get_raises in Hg as [->|[->|?]]; eauto.
Qed.

(** [__init__] never calls [check_sanity]: whatever the configuration, it
    does not raise [BuildDefError]. *)
Lemma __init___never_refuses expand config section msg :
  __init__ expand config section ≠ Raise (BuildDefError msg).
Proof.
  unfold __init__.
  repeat match goal with
         | |- bind ?r _ ≠ _ =>
             let H := fresh "H" in destruct r as [?|?] eqn:H; cbn [bind]
         end; try done;
    match goal with
    | H : Py.getitem _ _ = Raise _ |- _ =>
        apply getitem_raises in H as [? ->]; done
    | H : get _ _ _ = Raise _ |- _ =>
        apply get_raises in H as [->|[->|[[? ->]|[[? ->]| ->]]]]; done
    | H : getboolean _ _ _ = Raise _ |- _ =>
        apply getboolean_raises
          in H as [->|[->|[[[? ->]|[[? ->]| ->]]| ->]]]; done
    | H : get_fallback _ _ _ = Raise _ |- _ =>
        apply get_fallback_raises in H as [[? ->]|[[? ->]| ->]]; done
    | H : context [get ?c ?s "theme"] |- _ =>
        destruct (get c s "theme") as [?|e'] eqn:Hg; [done|];
        apply get_raises in Hg as [->|[->|[[? ->]|[[? ->]| ->]]]];
        simplify_eq; done
    end.
Qed.

(** C6 is not met by the code. [needs_build] passes two
    arguments to [matches], which declares one: every call raises
    [TypeError]; and [matches] returns no true value for any path, so the
    body after it answers [False] for every state of the definition. *)
Theorem needs_build_never_true
    (self : BuildDef) (watchPath filename : PathLib.Path) (now : Time) :
  needs_build self watchPath filename now
  = Raise (TypeError "wrong number of positional arguments")
  ∧ ∀ path, needs_build_after self (matches self path) filename now = false.
Proof.
  split; [done|]. intros path. by rewrite matches_returns_False.
Qed.

(** C7 is not met by the code. A section with both [files] and
    [excludes] is constructed without error, [check_sanity] would refuse
    the definition but is not called, and [build] writes the target. *)
Theorem builddef_with_both_filters_builds :
  __init__ id both_filters "builddef:main" = Ok both_filters_def
  ∧ files both_filters_def = ["scheme.dark.conf"]
  ∧ excludes both_filters_def = ["base.conf"]
  ∧ check_sanity both_filters_def
    = Raise (BuildDefError "files and excludes can't be used together.")
  ∧ build cfg_iterdir (λ _, true) cfg_read_text "Thu Jan  1 00:00:00 1970"
      both_filters_def
    = Ok (partials._raw scheme_dark).
Proof. split_and!; by vm_compute. Qed.

End build_facts.

(** * Further properties of the code *)

(** ** Strings: [split], [join] and [in] *)

Module string_facts.

Lemma split_go_nonempty sep skip s : Py.split_go sep skip s ≠ [].
Proof.
  revert skip. induction s as [|c r IH]; intros skip; [done|].
  cbn [Py.split_go]. destruct skip; [|apply IH].
  destruct (String.prefix sep (String c r)); [done|].
  by destruct (Py.split_go sep 0 r).
Qed.

(** Splitting at a one-character separator, one character at a time. *)
Lemma split_char_sep c r :
  Py.split (String c r) (String c EmptyString)
  = EmptyString :: Py.split r (String c EmptyString).
Proof.
  unfold Py.split. simpl. destruct (ascii_dec c c); [|done].
  by destruct r.
Qed.

Lemma split_char_other c d r :
  d ≠ c →
  ∃ l ls, Py.split r (String c EmptyString) = l :: ls
          ∧ Py.split (String d r) (String c EmptyString) = String d l :: ls.
Proof.
  intros Hne. unfold Py.split. simpl.
  destruct (ascii_dec c d); [congruence|].
  pose proof (split_go_nonempty (String c EmptyString) 0 r) as Hn.
  destruct (Py.split_go (String c EmptyString) 0 r) as [|l ls]; [done|].
  eauto.
Qed.

(** A character occurs in a string. *)
Lemma contains_char_cons c d r :
  Py.contains (String c EmptyString) (String d r)
  = bool_decide (c = d) || Py.contains (String c EmptyString) r.
Proof.
  simpl. destruct (ascii_dec c d) as [->|Hne].
  - rewrite bool_decide_true by done. by destruct r.
  - by rewrite bool_decide_false.
Qed.

Lemma contains_char_app c s t :
  Py.contains (String c EmptyString) (s +:+ t)
  = Py.contains (String c EmptyString) s
    || Py.contains (String c EmptyString) t.
Proof.
  induction s as [|d r IH].
  - by destruct t.
  - change (String d r +:+ t) with (String d (r +:+ t)).
    by rewrite !contains_char_cons, IH, orb_assoc.
Qed.

(** The pieces of a split, put together with the separator, are the
    string. *)
Lemma join_split_char c s :
  Py.join (String c EmptyString) (Py.split s (String c EmptyString)) = s.
Proof.
  induction s as [|d r IH]; [done|].
  destruct (decide (d = c)) as [->|Hne].
  - rewrite split_char_sep.
    pose proof (split_go_nonempty (String c EmptyString) 0 r) as Hn.
    fold (Py.split r (String c EmptyString)) in Hn.
    destruct (Py.split r (String c EmptyString)) as [|l ls] eqn:Hs; [done|].
    change (Py.join (String c EmptyString) (EmptyString :: l :: ls))
      with (String c (Py.join (String c EmptyString) (l :: ls))).
    by rewrite IH.
  - destruct (split_char_other c d r Hne) as (l & ls & Hs & ->).
    rewrite Hs in IH. rewrite <- IH. by destruct ls.
Qed.

(** A string without the separator is one piece. *)
Lemma split_char_none c s :
  Py.contains (String c EmptyString) s = false →
  Py.split s (String c EmptyString) = [s].
Proof.
  induction s as [|d r IH]; [done|].
  rewrite contains_char_cons. intros [Hd Hr]%orb_false_elim.
  apply bool_decide_eq_false in Hd.
  destruct (split_char_other c d r) as (l & ls & Hs & ->); [congruence|].
  rewrite (IH Hr) in Hs. by injection Hs as <- <-.
Qed.

(** The first piece ends at the first separator. *)
Lemma split_char_app c s t :
  Py.contains (String c EmptyString) s = false →
  Py.split (s +:+ String c t) (String c EmptyString)
  = s :: Py.split t (String c EmptyString).
Proof.
  induction s as [|d r IH].
  - intros _. apply split_char_sep.
  - rewrite contains_char_cons. intros [Hd Hr]%orb_false_elim.
    apply bool_decide_eq_false in Hd.
    change (String d r +:+ String c t) with (String d (r +:+ String c t)).
    destruct (split_char_other c d (r +:+ String c t))
      as (l & ls & Hs & ->); [congruence|].
    rewrite (IH Hr) in Hs. by injection Hs as <- <-.
Qed.

(** No piece holds the separator. *)
Lemma split_char_pieces c s piece :
  piece ∈ Py.split s (String c EmptyString) →
  Py.contains (String c EmptyString) piece = false.
Proof.
  revert piece. induction s as [|d r IH]; intros piece.
  - intros ->%list_elem_of_singleton. done.
  - destruct (decide (d = c)) as [->|Hne].
    + rewrite split_char_sep. intros [->|Hp]%elem_of_cons; [done|by apply IH].
    + destruct (split_char_other c d r Hne) as (l & ls & Hs & ->).
      rewrite Hs in IH.
      intros [->|Hp]%elem_of_cons.
      * rewrite contains_char_cons, bool_decide_false by congruence.
        apply IH. by left.
      * apply IH. by right.
Qed.

(** More than one piece exactly when the separator occurs. *)
Lemma split_char_length c s :
  (1 <? List.length (Py.split s (String c EmptyString)))
  = Py.contains (String c EmptyString) s.
Proof.
  induction s as [|d r IH]; [done|].
  rewrite contains_char_cons.
  destruct (decide (d = c)) as [->|Hne].
  - rewrite split_char_sep, bool_decide_true by done. simpl.
    pose proof (split_go_nonempty (String c EmptyString) 0 r) as Hn.
    fold (Py.split r (String c EmptyString)) in Hn.
    by destruct (Py.split r (String c EmptyString)).
  - destruct (split_char_other c d r Hne) as (l & ls & Hs & ->).
    rewrite Hs in IH. by rewrite bool_decide_false by congruence.
Qed.

End string_facts.

(** ** [pathlib]: name, stem and suffix *)

Module path_facts.
Import string_facts.

Lemma substring_all s : String.substring 0 (String.length s) s = s.
Proof. induction s as [|c r IH]; [done|]. simpl. by rewrite IH. Qed.

Lemma app_cons c r t : String c r +:+ t = String c (r +:+ t).
Proof. done. Qed.

Lemma app_empty_r s : s +:+ EmptyString = s.
Proof. induction s as [|c r IH]; [done|]. by rewrite app_cons, IH. Qed.

Lemma app_assoc_str a b c : (a +:+ b) +:+ c = a +:+ b +:+ c.
Proof. induction a as [|d r IH]; [done|]. by rewrite !app_cons, IH. Qed.

Lemma substring_split i s :
  i ≤ String.length s →
  String.substring 0 i s +:+ String.substring i (String.length s - i) s = s.
Proof.
  revert i. induction s as [|c r IH]; intros i Hi.
  - simpl in Hi. by replace i with 0 by lia.
  - destruct i as [|i].
    + rewrite Nat.sub_0_r. apply substring_all.
    + simpl in *. rewrite app_cons. f_equal. apply IH. lia.
Qed.

Lemma rfind_lt c s i : Py.rfind c s = Some i → i < String.length s.
Proof.
  revert i. induction s as [|d r IH]; intros i; [done|].
  simpl. destruct (Py.rfind c r) as [j|].
  - intros [= <-]. specialize (IH j eq_refl). lia.
  - destruct (Ascii.eqb d c); [|done]. intros [= <-]. lia.
Qed.

(** The stem and the suffix of a path are the two parts of its name:
    put together they give the name back, whatever the path. *)
Lemma stem_suffix_name (p : PathLib.Path) :
  PathLib.stem p +:+ PathLib.suffix p = PathLib.name p.
Proof.
  unfold PathLib.stem, PathLib.suffix, PathLib.suffix_dot.
  destruct (Py.rfind "." (PathLib.name p)) as [i|] eqn:Hi.
  - destruct (_ && _).
    + apply substring_split. apply rfind_lt in Hi. lia.
    + apply app_empty_r.
  - apply app_empty_r.
Qed.

Lemma rfind_app_char c s e :
  Py.contains (String c EmptyString) e = false →
  Py.rfind c (s +:+ String c e) = Some (String.length s).
Proof.
  intros He.
  assert (Py.rfind c e = None) as Hnone.
  { clear s. induction e as [|d r IH]; [done|].
    rewrite contains_char_cons in He.
    apply orb_false_elim in He as [Hd Hr]. apply bool_decide_eq_false in Hd.
    simpl. rewrite (IH Hr).
    destruct (Ascii.eqb_spec d c); [congruence|done]. }
  induction s as [|d r IH].
  - simpl. rewrite Hnone. by rewrite Ascii.eqb_refl.
  - change (String d r +:+ String c e) with (String d (r +:+ String c e)).
    simpl. by rewrite IH.
Qed.

Lemma length_app s t :
  String.length (s +:+ t) = String.length s + String.length t.
Proof. induction s as [|c r IH]; [done|]. rewrite app_cons. simpl. by rewrite IH. Qed.

Lemma substring_prefix s t :
  String.substring 0 (String.length s) (s +:+ t) = s.
Proof.
  induction s as [|c r IH]; [by destruct t|].
  rewrite app_cons. simpl. by rewrite IH.
Qed.

(** A name made of a non-empty stem, a dot and a non-empty extension
    without dot has that stem: the stem of [scheme.dark.conf] is
    [scheme.dark]. *)
Lemma stem_of_name (p : PathLib.Path) (stem ext : string) :
  PathLib.name p = stem +:+ "." +:+ ext →
  stem ≠ EmptyString →
  ext ≠ EmptyString →
  Py.contains "." ext = false →
  PathLib.stem p = stem ∧ PathLib.suffix p = "." +:+ ext.
Proof.
  intros Hname Hstem Hext Hdot.
  assert (PathLib.stem p = stem) as Hs.
  { unfold PathLib.stem, PathLib.suffix_dot. rewrite Hname.
    change (stem +:+ "." +:+ ext) with (stem +:+ String "." ext).
    rewrite (rfind_app_char "." stem ext Hdot), length_app.
    assert (0 < String.length stem) by (destruct stem; [done|simpl; lia]).
    assert (0 < String.length ext) by (destruct ext; [done|simpl; lia]).
    simpl String.length.
    destruct (Nat.ltb_spec 0 (String.length stem)); [|lia].
    destruct (Nat.ltb_spec (String.length stem)
                (String.length stem + S (String.length ext) - 1)); [|lia].
    simpl. apply substring_prefix. }
  split; [done|].
  pose proof (stem_suffix_name p) as Hsplit. rewrite Hs, Hname in Hsplit.
  clear -Hsplit. induction stem as [|c r IH]; [done|].
  rewrite !app_cons in Hsplit. injection Hsplit as Hsplit. by apply IH.
Qed.

End path_facts.

(** ** Fragments: what the name and the text give *)

Module fragment_facts.
Import partials partials_spec partials_create.
Import string_facts path_facts.
Import examples.

(** X1. The selectors of a fragment are the pieces of its stem between the
    dots: joined with dots they give the stem back, no piece holds a dot,
    and the fragment is conditional exactly when its stem holds a dot. *)
Theorem selectors_of_stem (p : Partial) :
  Py.join "." (selectors p) = PathLib.stem (path p)
  ∧ (∀ piece, piece ∈ selectors p → Py.contains "." piece = false)
  ∧ conditional p = Py.contains "." (PathLib.stem (path p)).
Proof.
  unfold conditional, selectors. split_and!.
  - apply join_split_char.
  - intros piece. apply split_char_pieces.
  - apply split_char_length.
Qed.

(** X2. A fragment whose file is named [key.value.ext], with no dot in the
    key, the value and the extension, is conditional and has that key and
    that value. *)
Theorem key_value_of_name (p : Partial) (k v ext : string) :
  PathLib.name (path p) = k +:+ "." +:+ v +:+ "." +:+ ext →
  Py.contains "." k = false →
  Py.contains "." v = false →
  Py.contains "." ext = false →
  ext ≠ EmptyString →
  conditional p = true ∧ key p = Some k ∧ value p = Some v.
Proof.
  intros Hname Hk Hv Hext Hne.
  destruct (stem_of_name (path p) (k +:+ "." +:+ v) ext) as [Hstem _];
    try done.
  { by rewrite Hname, !app_assoc_str. }
  { by destruct k. }
  assert (selectors p = [k; v]) as Hsel.
  { unfold selectors. rewrite Hstem.
    change (k +:+ "." +:+ v) with (k +:+ String "." v).
    by rewrite (split_char_app "." k v Hk), (split_char_none "." v Hv). }
  unfold key, value, conditional. by rewrite Hsel.
Qed.

Lemma key_value_of_name_witness :
  PathLib.name (path scheme_dark) = "scheme" +:+ "." +:+ "dark" +:+ "." +:+ "conf"
  ∧ conditional scheme_dark = true
  ∧ key scheme_dark = Some "scheme" ∧ value scheme_dark = Some "dark".
Proof.
  split; [by vm_compute|].
  apply (key_value_of_name scheme_dark "scheme" "dark" "conf"); by vm_compute.
Defined.

(** X3. A fragment whose file is named [name.ext], with no dot in the name
    and the extension, is unconditional: it has no key and no value. *)
Theorem plain_name_is_unconditional (p : Partial) (nm ext : string) :
  PathLib.name (path p) = nm +:+ "." +:+ ext →
  Py.contains "." nm = false →
  Py.contains "." ext = false →
  nm ≠ EmptyString →
  ext ≠ EmptyString →
  conditional p = false ∧ key p = None ∧ value p = None.
Proof.
  intros Hname Hnm Hext Hne1 Hne2.
  destruct (stem_of_name (path p) nm ext) as [Hstem _]; try done.
  assert (conditional p = false) as Hc.
  { unfold conditional, selectors. by rewrite split_char_length, Hstem. }
  unfold key, value. by rewrite Hc.
Qed.

Lemma plain_name_is_unconditional_witness :
  PathLib.name (path base) = "base" +:+ "." +:+ "conf"
  ∧ conditional base = false ∧ key base = None ∧ value base = None.
Proof.
  split; [by vm_compute|].
  apply (plain_name_is_unconditional base "base" "conf"); by vm_compute.
Defined.

(** [find]: the first match, or [None]. *)
Lemma find_spec (prts : list Partial) (k v : string) :
  (∀ p, find prts k v = Some p →
        ∃ i, prts !! i = Some p ∧ key p = Some k ∧ value p = Some v
             ∧ ∀ j q, j < i → prts !! j = Some q →
                      ¬ (key q = Some k ∧ value q = Some v))
  ∧ (find prts k v = None ↔
     ∀ p, p ∈ prts → ¬ (key p = Some k ∧ value p = Some v)).
Proof.
  induction prts as [|q prts [IH1 IH2]]; simpl.
  { split; [done|]. split; [|done]. intros _ p Hp. by apply elem_of_nil in Hp. }
  destruct (bool_decide (key q = Some k) && bool_decide (value q = Some v))
    eqn:Hq.
  - apply andb_true_iff in Hq as [Hk%bool_decide_eq_true Hv%bool_decide_eq_true].
    split.
    + intros p [= <-]. exists 0. split_and!; try done. intros j ? Hj. lia.
    + split; [done|]. intros Hno. exfalso. apply (Hno q); [by left|done].
  - assert (¬ (key q = Some k ∧ value q = Some v)) as Hnq.
    { intros [Hk Hv]. by rewrite !bool_decide_true in Hq. }
    split.
    + intros p Hp. destruct (IH1 p Hp) as (i & Hi & Hk & Hv & Hfirst).
      exists (S i). split_and!; try done.
      intros [|j] q' Hj Hq'; simplify_eq/=; [done|].
      apply (Hfirst j q'); [lia|done].
    + rewrite IH2. split.
      * intros Hno p [->|Hp]%elem_of_cons; [done|by apply Hno].
      * intros Hno p Hp. apply Hno. by right.
Qed.

(** X4. [find] returns the first fragment of the list with the key and the
    value, and [None], without raising, exactly when the list has no such
    fragment. *)
Theorem find_first_match (prts : list Partial) (k v : string) :
  (∀ p, find prts k v = Some p →
        ∃ i, prts !! i = Some p ∧ key p = Some k ∧ value p = Some v
             ∧ ∀ j q, j < i → prts !! j = Some q →
                      ¬ (key q = Some k ∧ value q = Some v))
  ∧ (find prts k v = None ↔
     ∀ p, p ∈ prts → ¬ (key p = Some k ∧ value p = Some v)).
Proof. apply find_spec. Qed.

(** X5. The joined text of a fragment is its raw text when the raw text
    holds no backslash. *)
Theorem _joined_without_backslash (p : Partial) :
  Py.contains "\" (_raw p) = false → _joined p = _raw p.
Proof.
  unfold _joined. induction (_raw p) as [|c r IH]; [done|].
  rewrite contains_char_cons. intros [Hc Hr]%orb_false_elim.
  apply bool_decide_eq_false in Hc.
  simpl. destruct (Ascii.eqb_spec c "\"); [congruence|].
  by rewrite (IH Hr).
Qed.

Lemma _joined_without_backslash_witness :
  Py.contains "\" (_raw base) = false ∧ _joined base = _raw base.
Proof.
  split; [by vm_compute|]. apply _joined_without_backslash. by vm_compute.
Defined.

(** [sorted]: the same partials, smaller names first. *)
Lemma insert_partial_perm p l : insert_partial p l ≡ₚ p :: l.
Proof.
  induction l as [|q l IH]; [done|]. simpl.
  destruct (lt q p); [|done]. rewrite IH. apply Permutation_swap.
Qed.

Lemma sorted_perm prts : sorted prts ≡ₚ prts.
Proof.
  induction prts as [|p prts IH]; [done|]. simpl.
  by rewrite insert_partial_perm, IH.
Qed.

Lemma compare_refl s : String.compare s s = Eq.
Proof.
  induction s as [|c r IH]; [done|]. simpl.
  unfold Ascii.compare. by rewrite N.compare_refl.
Qed.

Lemma ltb_leb_trans a b c :
  String.ltb a b = false → String.ltb b c = false → String.ltb a c = false.
Proof.
  unfold String.ltb.
  destruct (String.compare a b) eqn:Hab; [|done|]; intros _;
    destruct (String.compare b c) eqn:Hbc; try done; intros _.
  - apply String.compare_eq_iff in Hab, Hbc. subst.
    by rewrite compare_refl.
  - apply String.compare_eq_iff in Hab as ->. by rewrite Hbc.
  - apply String.compare_eq_iff in Hbc as ->. by rewrite Hab.
  - destruct (String.compare a c) eqn:Hac; try done.
    rewrite String.compare_antisym in Hab, Hbc.
    destruct (String.compare b a) eqn:Hba; try done.
    destruct (String.compare c b) eqn:Hcb; try done.
    apply OrderedTypeEx.String_as_OT.cmp_lt in Hac, Hba, Hcb.
    pose proof (OrderedTypeEx.String_as_OT.lt_trans _ _ _ Hac Hcb) as Hab'.
    pose proof (OrderedTypeEx.String_as_OT.lt_trans _ _ _ Hab' Hba) as Haa.
    by apply OrderedTypeEx.String_as_OT.lt_not_eq in Haa.
Qed.

Lemma ltb_total a b : String.ltb a b = true → String.ltb b a = false.
Proof.
  unfold String.ltb. rewrite (String.compare_antisym a b).
  by destruct (String.compare b a).
Qed.

Local Abbreviation name_le := (fun a b : Partial => lt b a = false).

Lemma StronglySorted_lookup {A} (R : relation A) (l : list A) i j x y :
  StronglySorted R l → i < j → l !! i = Some x → l !! j = Some y → R x y.
Proof.
  intros Hs. revert i j. induction Hs as [|z l Hs IH Hall]; intros i j Hij Hi Hj.
  { done. }
  destruct j as [|j]; [lia|]. simpl in Hj.
  destruct i as [|i]; simpl in Hi.
  - injection Hi as <-. rewrite Forall_forall in Hall. apply Hall.
    by eapply list_elem_of_lookup_2.
  - apply (IH i j); [lia|done..].
Qed.

Lemma insert_partial_sorted p l :
  StronglySorted name_le l → StronglySorted name_le (insert_partial p l).
Proof.
  induction 1 as [|q l Hs IH Hall]; simpl.
  { repeat constructor. }
  destruct (lt q p) eqn:Hqp.
  - constructor; [done|].
    rewrite insert_partial_perm. constructor; [|done].
    unfold lt in *. by apply ltb_total.
  - constructor; [by constructor|].
    constructor; [done|].
    eapply Forall_impl; [exact Hall|]. intros r Hr.
    unfold lt in *. by eapply ltb_leb_trans.
Qed.

Lemma sorted_sorted prts : StronglySorted name_le (sorted prts).
Proof.
  induction prts as [|p prts IH]; simpl; [constructor|].
  by apply insert_partial_sorted.
Qed.

(** X6. What [create] returns are the fragments found, each once, ordered
    by file name: no fragment comes after one with a greater name. It
    returns only when there is a fragment. *)
Theorem create_sorts_by_name (globbed prts : list Partial) :
  create globbed = Ok prts →
  globbed ≠ []
  ∧ prts ≡ₚ globbed
  ∧ ∀ i j p q, i < j → prts !! i = Some p → prts !! j = Some q →
               String.ltb (name q) (name p) = false.
Proof.
  intros Hc. destruct globbed as [|g gs]; [done|].
  injection Hc as <-. split_and!; [done|apply (sorted_perm (g :: gs))|].
  intros i j p q Hij Hi Hj.
  exact (StronglySorted_lookup _ _ i j p q (sorted_sorted (g :: gs)) Hij Hi Hj).
Qed.

Lemma create_sorts_by_name_witness :
  [base; scheme_dark; scheme_light] ≡ₚ [scheme_light; base; scheme_dark]
  ∧ ∀ i j p q, i < j →
      [base; scheme_dark; scheme_light] !! i = Some p →
      [base; scheme_dark; scheme_light] !! j = Some q →
      String.ltb (name q) (name p) = false.
Proof.
  apply (create_sorts_by_name [scheme_light; base; scheme_dark]
           [base; scheme_dark; scheme_light]).
  by vm_compute.
Defined.

End fragment_facts.

(** ** The selection engine in general *)

Module selection_facts.
Import partials partials_spec.
Import select_facts.
Import examples.

(** The fragments [select] takes when the selector is empty. *)
Local Abbreviation included ex c d :=
  (fun p : Partial =>
     if conditional p then negb (excluded ex p) && d && isDefault p else c).

(** A fragment serves the entry [k], [v] of a selector: it has the key, is
    not excluded, and has the value or is taken as a default. *)
Local Abbreviation serves ex d p k v :=
  (key p = Some k ∧ excluded ex p = false
   ∧ (value p = Some v ∨ d && isDefault p = true)).

Lemma select_step_empty ex c d p :
  select_step ex c d p (∅, []) = (∅, if included ex c d p then [p] else []).
Proof.
  unfold select_step, selected_by, _select. cbn [fst].
  destruct (conditional p) eqn:Hc.
  - destruct (excluded ex p); [done|]. simpl.
    destruct (key p) as [k|].
    + rewrite (bool_decide_false (∅ ≠ ∅)) by (by intros []). simpl.
      destruct (d && isDefault p); [|done].
      by rewrite bool_decide_false by (rewrite lookup_empty; by intros [? ?]).
    + by destruct (d && isDefault p).
  - rewrite (unconditional_key p Hc). by destruct c.
Qed.

Lemma select_loop_empty_selected F ex c d :
  select_loop F ex c d (∅, []) = (∅, List.filter (included ex c d) F).
Proof.
  induction F as [|p F IH]; [done|].
  rewrite select_loop_cons, select_step_empty. cbn [fst snd].
  rewrite IH. cbn [fst snd List.filter].
  by destruct (included ex c d p).
Qed.

(** [select] with nothing to look for. *)
Lemma select_empty_selector
    (F : list Partial) (ex : option (list string)) (c d : bool) :
  select F ∅ ex c d
  = (Ok (one_or_list
           (List.filter
              (fun p => if conditional p
                        then negb (excluded ex p) && d && isDefault p
                        else c) F)),
     ∅).
Proof.
  unfold select. rewrite select_loop_empty_selected.
  by rewrite bool_decide_false by (by intros []).
Qed.

(** X7. With an empty selector map [select] never raises: it returns, in
    the order of the input, the unconditional fragments when they are
    asked for, and the default fragments whose key is not excluded when
    defaults are asked for; no other fragment. *)
Theorem select_with_empty_selector
    (F : list Partial) (ex : option (list string)) (c d : bool) :
  select F ∅ ex c d
  = (Ok (one_or_list
           (List.filter
              (fun p => if conditional p
                        then negb (excluded ex p) && d && isDefault p
                        else c) F)),
     ∅).
Proof. apply select_empty_selector. Qed.

Lemma select_step_selector ex c d p cur k v :
  (select_step ex c d p (cur, [])).1 !! k = Some v
  ↔ cur !! k = Some v ∧ ¬ serves ex d p k v.
Proof.
  unfold select_step, _select. cbn [fst].
  destruct (conditional p) eqn:Hc.
  - destruct (excluded ex p) eqn:He.
    { split; [intros ?; split; [done|by intros (_ & ? & _)]|by intros [? _]]. }
    destruct (key p) as [k0|] eqn:Hk0.
    + destruct (selected_by cur p) eqn:Hsel.
      * unfold selected_by in Hsel. rewrite Hk0 in Hsel.
        apply andb_true_iff in Hsel as [Hsel Hv%bool_decide_eq_true].
        apply andb_true_iff in Hsel as [_ Hin].
        rewrite Hin. cbn [fst]. rewrite lookup_delete_Some. split.
        -- intros [Hne Hcur]. split; [done|]. intros ([= ->] & _). done.
        -- intros [Hcur Hno]. split; [|done]. intros ->.
           apply Hno. split_and!; try done. left. congruence.
      * destruct (d && isDefault p) eqn:Hd.
        -- case_bool_decide as Hin; cbn [fst].
           ++ rewrite lookup_delete_Some. split.
              ** intros [Hne Hcur]. split; [done|]. intros ([= ->] & _). done.
              ** intros [Hcur Hno]. split; [|done]. intros ->.
                 apply Hno. split_and!; try done. by right.
           ++ split; [|by intros [? _]]. intros Hcur. split; [done|].
              intros ([= ->] & _). apply Hin. by rewrite Hcur.
        -- cbn [fst]. split; [|by intros [? _]]. intros Hcur. split; [done|].
           intros ([= ->] & _ & [Hv|Hd']); [|done].
           unfold selected_by in Hsel. rewrite Hk0 in Hsel.
           rewrite (bool_decide_true (cur ≠ ∅)) in Hsel
             by (intros ->; by rewrite lookup_empty in Hcur).
           rewrite (bool_decide_true (is_Some (cur !! k))) in Hsel
             by (by rewrite Hcur).
           rewrite (bool_decide_true (value p = cur !! k)) in Hsel
             by congruence.
           done.
    + destruct (selected_by cur p), (d && isDefault p); cbn [fst];
        (split; [intros ?; split; [done|by intros (? & _)]|by intros [? _]]).
  - rewrite (unconditional_key p Hc).
    destruct c; cbn [fst];
      (split; [intros ?; split; [done|by intros (? & _)]|by intros [? _]]).
Qed.

Lemma select_loop_selector F ex c d cur k v :
  (select_loop F ex c d (cur, [])).1 !! k = Some v
  ↔ cur !! k = Some v ∧ ∀ p, p ∈ F → ¬ serves ex d p k v.
Proof.
  revert cur. induction F as [|p F IH]; intros cur.
  { simpl. split; [|by intros [? _]]. intros ?. split; [done|].
    intros p Hp. by apply elem_of_nil in Hp. }
  rewrite select_loop_cons. cbn [fst]. rewrite IH, select_step_selector.
  split.
  - intros [[Hcur Hp] HF]. split; [done|].
    intros q [->|Hq]%elem_of_cons; [done|by apply HF].
  - intros [Hcur HF]. split; [split; [done|]|].
    + apply HF. by left.
    + intros q Hq. apply HF. by right.
Qed.

(** X8. [select] raises exactly when some entry of the selector map is
    served by no fragment, a fragment serving an entry when it has the
    key, is not excluded, and has the value or is taken as a default. The
    exception is [ConfigError] and carries exactly the entries that are not
    served, which are also what is left in the caller's map. *)
Theorem select_raises_iff_unserved
    (F : list Partial) (sel : gmap string string) (ex : option (list string))
    (c d : bool) :
  ((∃ r, select F sel ex c d = (Ok r, ∅))
   ↔ ∀ k v, sel !! k = Some v →
            ∃ p, p ∈ F ∧ key p = Some k ∧ excluded ex p = false
                 ∧ (value p = Some v ∨ d && isDefault p = true))
  ∧ (∀ e sel', select F sel ex c d = (Raise e, sel') →
       e = ConfigError "not all selector processed: %s" sel'
       ∧ sel' ≠ ∅
       ∧ ∀ k v, sel' !! k = Some v
                ↔ sel !! k = Some v
                  ∧ ∀ p, p ∈ F →
                         ¬ (key p = Some k ∧ excluded ex p = false
                            ∧ (value p = Some v ∨ d && isDefault p = true))).
Proof.
  pose proof (select_loop_selector F ex c d sel) as Hfinal.
  unfold select.
  destruct (select_loop F ex c d (sel, [])) as [sel1 l]. cbn [fst] in Hfinal.
  split.
  - split.
    + intros [r Hr]. case_bool_decide as Hne; [done|].
      injection Hr as _ ->. intros k v Hk.
      destruct (decide (Exists (λ p, serves ex d p k v) F)) as [Hex|Hno].
      * apply Exists_exists in Hex as (p & Hp & Hs). eauto.
      * exfalso. assert ((∅ : gmap string string) !! k = Some v) as Hbad; [|done].
        apply Hfinal. split; [done|]. intros p Hp Hs.
        apply Hno, Exists_exists. eauto.
    + intros Hall. assert (sel1 = ∅) as ->.
      { apply map_empty. intros k.
        destruct (sel1 !! k) as [v|] eqn:Hk; [|done]. exfalso.
        apply Hfinal in Hk as [Hk Hno].
        destruct (Hall k v Hk) as (p & Hp & Hs). by apply (Hno p). }
      rewrite bool_decide_false by (by intros []). eauto.
  - intros e sel' Hr. case_bool_decide as Hne; [|done].
    injection Hr as <- <-. split_and!; try done.
Qed.

Lemma select_raises_iff_unserved_witness :
  select [base; scheme_dark] want_light None true true
  = (Raise (ConfigError "not all selector processed: %s" want_light),
     want_light)
  ∧ want_light ≠ ∅.
Proof.
  assert (select [base; scheme_dark] want_light None true true
          = (Raise (ConfigError "not all selector processed: %s" want_light),
             want_light)) as H by (by vm_compute).
  split; [exact H|].
  exact (proj1 (proj2 (proj2 (select_raises_iff_unserved _ _ _ _ _) _ _ H))).
Defined.

Lemma select_step_selected ex c d p cur :
  (select_step ex c d p (cur, [])).2
  = if (if conditional p
        then negb (excluded ex p) && (selected_by cur p || d && isDefault p)
        else c)
    then [p] else [].
Proof.
  assert (∀ st, (_select p (cur, st)).2 = st ++ [p]) as Hsel.
  { intros st. unfold _select. destruct (key p); [case_bool_decide|]; done. }
  unfold select_step. cbn [fst].
  destruct (conditional p).
  - destruct (excluded ex p); [done|]. cbn [negb andb].
    destruct (selected_by cur p); [by rewrite Hsel|]. cbn [orb].
    destruct (d && isDefault p); [by rewrite Hsel|done].
  - destruct c; [by rewrite Hsel|done].
Qed.

Lemma selected_by_requested cur p :
  selected_by cur p = true → requested_by cur p.
Proof.
  unfold selected_by, requested_by. destruct (key p) as [k|]; [|done].
  intros [[_ [v Hin]%bool_decide_eq_true]%andb_true_iff
            Hv%bool_decide_eq_true]%andb_true_iff.
  exists k, v. split_and!; congruence.
Qed.

Lemma select_loop_sound F ex c d cur p :
  p ∈ (select_loop F ex c d (cur, [])).2 →
  if conditional p
  then excluded ex p = false
       ∧ (requested_by cur p ∨ (d = true ∧ isDefault p = true))
  else c = true.
Proof.
  revert cur. induction F as [|q F IH]; intros cur.
  { by intros ?%elem_of_nil. }
  rewrite select_loop_cons. cbn [snd]. rewrite select_step_selected.
  intros [Hp|Hp]%elem_of_app.
  - destruct (conditional q) eqn:Hc.
    + destruct (excluded ex q) eqn:He; [by apply elem_of_nil in Hp|].
      simpl in Hp. destruct (selected_by cur q) eqn:Hs; simpl in Hp.
      * apply list_elem_of_singleton in Hp as ->. rewrite Hc.
        split; [done|]. left. by apply selected_by_requested.
      * destruct d; [|by apply elem_of_nil in Hp]. simpl in Hp.
        destruct (isDefault q) eqn:Hd; [|by apply elem_of_nil in Hp].
        apply list_elem_of_singleton in Hp as ->. rewrite Hc. auto.
    + destruct c; [|by apply elem_of_nil in Hp].
      apply list_elem_of_singleton in Hp as ->. by rewrite Hc.
  - specialize (IH _ Hp). destruct (conditional p); [|done].
    destruct IH as [He [(k & v & Hk & Hv & Hcur)|Hd]]; [|auto].
    split; [done|]. left. exists k, v. split_and!; try done.
    by apply (select_step_selector ex c d q cur k v) in Hcur as [? _].
Qed.

Lemma select_loop_complete F ex c d cur p :
  p ∈ F →
  (if conditional p then excluded ex p = false ∧ d = true ∧ isDefault p = true
   else c = true) →
  p ∈ (select_loop F ex c d (cur, [])).2.
Proof.
  revert cur. induction F as [|q F IH]; intros cur.
  { by intros ?%elem_of_nil. }
  rewrite select_loop_cons. cbn [snd]. rewrite select_step_selected.
  intros [->|Hp]%elem_of_cons Hq; apply elem_of_app; [left|right; by apply IH].
  destruct (conditional q).
  - destruct Hq as (-> & -> & ->). simpl. rewrite orb_true_r. by left.
  - rewrite Hq. by left.
Qed.

Lemma as_list_one_or_list l : as_list (one_or_list l) = l.
Proof. by destruct l as [|p [|q l]]. Qed.

(** X9. What a successful [select] takes, whatever the selector map, the
    exclusions and the two flags: only fragments of the input; a
    conditional fragment only when its key is not excluded and either the
    map holds its key with its value or defaults are on and it is a
    default; an unconditional fragment only when they are asked for. It
    leaves out no unconditional fragment that is asked for and no default
    fragment that is not excluded when defaults are on. *)
Theorem select_takes_only_and_all
    (F : list Partial) (sel : gmap string string) (ex : option (list string))
    (c d : bool) (r : Selected) (sel' : gmap string string) :
  select F sel ex c d = (Ok r, sel') →
  (∀ p, p ∈ as_list r →
        p ∈ F
        ∧ if conditional p
          then excluded ex p = false
               ∧ (requested_by sel p ∨ (d = true ∧ isDefault p = true))
          else c = true)
  ∧ (∀ p, p ∈ F → conditional p = false → c = true → p ∈ as_list r)
  ∧ (∀ p, p ∈ F → conditional p = true → excluded ex p = false →
          d = true → isDefault p = true → p ∈ as_list r).
Proof.
  unfold select.
  pose proof (select_loop_sublist F ex c d sel) as Hsub.
  pose proof (select_loop_sound F ex c d sel) as Hsound.
  pose proof (select_loop_complete F ex c d sel) as Hall.
  destruct (select_loop F ex c d (sel, [])) as [sel1 l]. cbn [snd] in *.
  case_bool_decide; [done|]. intros [= <- _].
  rewrite as_list_one_or_list. split_and!.
  - intros p Hp. split; [by eapply elem_of_sublist|by apply Hsound].
  - intros p Hp Hc Hyes. apply Hall; [done|]. by rewrite Hc.
  - intros p Hp Hc He Hd Hdef. apply Hall; [done|]. by rewrite Hc.
Qed.

Lemma select_takes_only_and_all_witness :
  select [base; scheme_dark; scheme_light] want_light (Some ["bar"]) true true
  = (Ok (Listed [base; scheme_light]), ∅)
  ∧ (∀ p, p ∈ [base; scheme_dark; scheme_light] → conditional p = false →
          true = true → p ∈ as_list (Listed [base; scheme_light])).
Proof.
  assert (select [base; scheme_dark; scheme_light] want_light (Some ["bar"])
            true true = (Ok (Listed [base; scheme_light]), ∅)) as H
      by (by vm_compute).
  split; [exact H|].
  exact (proj1 (proj2 (select_takes_only_and_all _ _ _ _ _ _ _ H))).
Defined.

(** X10. With an empty selector map [get_content] gives the display texts
    of the unconditional fragments and of the default fragments that are
    not excluded, one after the other in the order of the input, and
    raises [I3configgerException] when there is no such fragment. *)
Theorem get_content_with_empty_selector
    (SET_MARK : string) (prts : list Partial) (ex : option (list string)) :
  get_content SET_MARK prts ∅ ex
  = match List.filter
            (fun p => if conditional p
                      then negb (excluded ex p) && isDefault p
                      else true) prts with
    | [] => (Raise (I3configgerException "No content for %s, %s, %s"), ∅)
    | l => (Ok (Py.join EmptyString (display SET_MARK <$> l)), ∅)
    end.
Proof.
  unfold get_content. rewrite select_empty_selector.
  erewrite (List.filter_ext (λ p, if conditional p
                                  then negb (excluded ex p) && true
                                       && isDefault p else true));
    [|intros p; by rewrite andb_true_r].
  by destruct (List.filter _ prts) as [|p [|q l]].
Qed.






End selection_facts.

(** ** The state store in general *)

Module store_facts.
Import partials config config_bars.
Import select_facts state_facts fragment_facts.
Import examples.

(** X11. The [select] command with a key and a value: when some fragment
    has them, the selection of the key becomes the value and the state is
    written; when none has, the command raises [MessageError] and the
    state file keeps its content. Further elements of the message are not
    looked at. *)
Theorem select_command_stores_or_refuses
    (state : StateDoc) (prts : list Partial) (k v : string)
    (more : list string) :
  ((∃ p, p ∈ prts ∧ key p = Some k ∧ value p = Some v) →
   process (Some state) prts (Some (SELECT, k :: v :: more))
   = (Ok None,
      Some {| state_select := <[k := v]> (state_select state);
              state_set := state_set state |}))
  ∧ ((∀ p, p ∈ prts → ¬ (key p = Some k ∧ value p = Some v)) →
     process (Some state) prts (Some (SELECT, k :: v :: more))
     = (Raise (MessageError "No candidate for {message}"), Some state)).
Proof.
  destruct (find_spec prts k v) as [Hsome Hnone].
  unfold process, apply_command. cbn.
  split.
  - intros (p & Hp & Hk & Hv).
    destruct (find prts k v) as [candidate|] eqn:Hf.
    + destruct (Hsome candidate eq_refl) as (_ & _ & _ & -> & _). done.
    + exfalso. by apply (proj1 Hnone eq_refl p).
  - intros Hno. by rewrite (proj2 Hnone Hno).
Qed.

Lemma select_command_stores_or_refuses_witness :
  process (Some dark_selected) [base; scheme_dark; scheme_light]
    (Some (SELECT, ["scheme"; "light"]))
  = (Ok None,
     Some {| state_select := <["scheme" := "light"]> (state_select dark_selected);
             state_set := state_set dark_selected |})
  ∧ process (Some dark_selected) [base] (Some (SELECT, ["scheme"; "light"]))
    = (Raise (MessageError "No candidate for {message}"), Some dark_selected).
Proof.
  split.
  - apply (select_command_stores_or_refuses dark_selected
             [base; scheme_dark; scheme_light] "scheme" "light" []).
    exists scheme_light. split; [|by vm_compute]. do 2 right. by left.
  - apply (select_command_stores_or_refuses dark_selected [base]
             "scheme" "light" []).
    intros p ->%list_elem_of_singleton [Hk _]. by vm_compute in Hk.
Defined.



(** X14. On a list without repetition the two helpers undo each other from
    every element of the list: going on and then back, or back and then
    on, ends on the element it started from. *)
Theorem advance_helpers_inverse
    {A : Type} `{EqDecision A} (items : list A) (current : A) :
  NoDup items →
  current ∈ items →
  (∃ x, _next current items = Ok x ∧ _previous x items = Ok current)
  ∧ (∃ y, _previous current items = Ok y ∧ _next y items = Ok current).
Proof.
  intros Hnd Hc. split; [by apply _previous_next|by apply _next_previous].
Qed.

Lemma advance_helpers_inverse_witness :
  (∃ x, _next 3%nat [1; 2; 3]%nat = Ok x ∧ _previous x [1; 2; 3]%nat = Ok 3%nat)
  ∧ (∃ y, _previous 3%nat [1; 2; 3]%nat = Ok y ∧ _next y [1; 2; 3]%nat = Ok 3%nat).
Proof.
  apply (advance_helpers_inverse [1; 2; 3]%nat 3%nat).
  - apply (bool_decide_unpack _). by vm_compute.
  - by do 2 right; left.
Defined.

(** X15. The helpers wrap around: on a list without repetition the element
    after the last is the first, and the element before the first is the
    last. *)
Theorem advance_helpers_wrap
    {A : Type} `{EqDecision A} (items : list A) (first lst : A) :
  NoDup items →
  head items = Some first →
  last items = Some lst →
  _next lst items = Ok first ∧ _previous first items = Ok lst.
Proof.
  intros Hnd Hf Hl. split; [by apply _next_wraps|by apply _previous_wraps].
Qed.

Lemma advance_helpers_wrap_witness :
  _next 3%nat [1; 2; 3]%nat = Ok 1%nat
  ∧ _previous 1%nat [1; 2; 3]%nat = Ok 3%nat.
Proof.
  apply (advance_helpers_wrap [1; 2; 3]%nat 1%nat 3%nat); [|done..].
  apply (bool_decide_unpack _). by vm_compute.
Defined.

Lemma fill_defaults_union {V} (defaults newBar : gmap string V) :
  fill_defaults defaults newBar = newBar ∪ defaults.
Proof.
  unfold fill_defaults.
  apply (map_fold_weak_ind (λ r m, r = newBar ∪ m)).
  - by rewrite (right_id_L ∅ (∪)).
  - intros i x m r Hm ->. rewrite lookup_union, Hm.
    destruct (newBar !! i) as [y|] eqn:Hy; cbn.
    + apply map_eq. intros j. rewrite !lookup_union.
      destruct (decide (i = j)) as [<-|Hne].
      * by rewrite Hy, lookup_insert_eq, Hm.
      * by rewrite lookup_insert_ne.
    + by rewrite insert_union_r.
Qed.

Lemma populate_bar_defaults_fmap {V} (bars : gmap string (gmap string V)) :
  populate_bar_defaults bars
  = (λ bar, bar ∪ default ∅ (bars !! "defaults")) <$> delete "defaults" bars.
Proof.
  unfold populate_bar_defaults.
  generalize (default ∅ (bars !! "defaults")). intros defaults.
  apply (map_fold_weak_ind
           (λ r m, r = (λ bar, bar ∪ defaults) <$> delete "defaults" m)).
  - by rewrite delete_empty, fmap_empty.
  - intros i x m r Hm ->. case_bool_decide as Hi.
    + subst i. by rewrite delete_insert_eq.
    + rewrite delete_insert_ne by done.
      by rewrite fmap_insert, fill_defaults_union.
Qed.

(** X16. [populate_bar_defaults] gives every bar other than ["defaults"]
    its own settings, with each setting it lacks taken from ["defaults"];
    a setting of the bar is never replaced. The result has no bar
    ["defaults"] and no bar that the input does not have. *)
Theorem populate_bar_defaults_resolves
    {V : Type} (bars : gmap string (gmap string V)) (name : string) :
  populate_bar_defaults bars !! "defaults" = None
  ∧ (bars !! name = None → populate_bar_defaults bars !! name = None)
  ∧ (∀ bar, name ≠ "defaults" → bars !! name = Some bar →
       ∃ resolved,
         populate_bar_defaults bars !! name = Some resolved
         ∧ ∀ setting,
             resolved !! setting
             = match bar !! setting with
               | Some x => Some x
               | None => default ∅ (bars !! "defaults") !! setting
               end).
Proof.
  rewrite populate_bar_defaults_fmap. split_and!.
  - by rewrite lookup_fmap, lookup_delete_eq.
  - intros Hn. rewrite lookup_fmap.
    destruct (decide (name = "defaults")) as [->|Hne].
    + by rewrite lookup_delete_eq.
    + by rewrite lookup_delete_ne, Hn.
  - intros bar Hne Hbar. eexists. split.
    + by rewrite lookup_fmap, lookup_delete_ne, Hbar.
    + intros setting. rewrite lookup_union.
      by destruct (bar !! setting), (default ∅ (bars !! "defaults") !! setting).
Qed.

Lemma populate_bar_defaults_resolves_witness :
  ∃ resolved,
    populate_bar_defaults
      ({[ "defaults" := {[ "font" := "mono"; "position" := "top" ]};
          "main" := {[ "position" := "bottom" ]} ]}
       : gmap string (gmap string string)) !! "main" = Some resolved
    ∧ resolved !! "position" = Some "bottom"
    ∧ resolved !! "font" = Some "mono".
Proof.
  destruct (populate_bar_defaults_resolves
              ({[ "defaults" := {[ "font" := "mono"; "position" := "top" ]};
                  "main" := {[ "position" := "bottom" ]} ]}
               : gmap string (gmap string string)) "main")
    as (_ & _ & Hmain).
  destruct (Hmain {[ "position" := "bottom" ]}) as (resolved & Hr & Hs);
    [done|by vm_compute|].
  exists resolved. split; [done|]. split; rewrite Hs; by vm_compute.
Defined.

(** X17. Without a state file the initial state is written only when
    there is no fragment: [process] then writes the state without
    selection and value, and returns it when there is no message. With
    any fragment the loop of [populate_initial_state] reads
    [needsSelection] from the first one, an attribute [Partial] does not
    have: whatever the message, [process] ends in that [AttributeError]
    and no file is written. *)
Theorem initial_state_without_fragments
    (prts : list Partial) (message : Message) :
  process None [] None
  = (Ok (Some {| state_select := ∅; state_set := ∅ |}),
     Some {| state_select := ∅; state_set := ∅ |})
  ∧ (prts ≠ [] →
     process None prts message
     = (Raise (AttributeError
                 "'Partial' object has no attribute 'needsSelection'"),
        None)).
Proof. split; [done|]. by destruct prts. Qed.

Lemma initial_state_without_fragments_witness :
  process None [base; scheme_dark] (Some (SELECT, ["scheme"; "dark"]))
  = (Raise (AttributeError
              "'Partial' object has no attribute 'needsSelection'"),
     None).
Proof.
  by apply (proj2 (initial_state_without_fragments [base; scheme_dark]
                     (Some (SELECT, ["scheme"; "dark"])))).
Defined.

End store_facts.

(** ** Build definitions in general *)

Module builddef_facts.
Import lib.
Import string_facts path_facts fragment_facts state_facts build_facts.
Import examples.

Local Abbreviation nonempty :=
  (λ p : string, negb (bool_decide (p = EmptyString))).
Local Abbreviation lines s := (Py.split s (String Py.LF EmptyString)).
Local Abbreviation path_le :=
  (λ a b : PathLib.Path, parts_ltb (parts b) (parts a) = false).

Lemma split_join_char c (l : list string) :
  l ≠ [] →
  Forall (λ s, Py.contains (String c EmptyString) s = false) l →
  Py.split (Py.join (String c EmptyString) l) (String c EmptyString) = l.
Proof.
  intros Hne Hall. induction Hall as [|x l Hx Hall IH]; [done|].
  destruct l as [|y r]; [by apply split_char_none|].
  change (Py.join (String c EmptyString) (x :: y :: r))
    with (x +:+ String c (Py.join (String c EmptyString) (y :: r))).
  rewrite (split_char_app c x _ Hx). f_equal. by apply IH.
Qed.

Lemma filter_nonempty_id (l : list string) :
  Forall (λ s, s ≠ EmptyString) l → List.filter nonempty l = l.
Proof.
  induction 1 as [|x l Hx _ IH]; [done|]. cbn [List.filter].
  by rewrite bool_decide_false, IH.
Qed.

Lemma serialize_lines item :
  serialize item = List.filter nonempty (lines item) ∨ item = EmptyString.
Proof.
  unfold serialize.
  destruct (Py.contains _ item) eqn:Hc; [by left|].
  destruct item as [|c r]; [by right|]. left.
  by rewrite (split_char_none _ _ Hc).
Qed.

Section with_environment.
Variable expand : string → PathLib.Path.

(** [prep] and the lines of its text. *)
Lemma prep_lines
    (incoming : option string) (asPaths : bool) :
  prep expand incoming asPaths
  = (if asPaths then fmap expand else id)
      (List.filter (λ p, negb (bool_decide (p = EmptyString)))
         (Py.split (default EmptyString incoming)
            (String Py.LF EmptyString))).
Proof.
  destruct incoming as [[|c r]|]; [by destruct asPaths| |by destruct asPaths].
  cbn [prep default].
  destruct (serialize_lines (String c r)) as [->|?]; [|done].
  by destruct asPaths.
Qed.

(** X18. [prep] gives the lines of its text that are not empty, in their
    order, each passed through the expansion when paths are asked for;
    the test for a line break in the text makes no difference. A missing
    option gives the empty list. *)
Theorem prep_gives_nonempty_lines
    (incoming : option string) (asPaths : bool) :
  prep expand incoming asPaths
  = (if asPaths then fmap expand else id)
      (List.filter (λ p, negb (bool_decide (p = EmptyString)))
         (Py.split (default EmptyString incoming)
            (String Py.LF EmptyString))).
Proof. apply prep_lines. Qed.

(** X19. Items that are not empty and hold no line break come back from
    [prep] as they were when they are given one per line. *)
Theorem prep_reads_back_joined_items (items : list string) :
  Forall (λ item, item ≠ EmptyString
                  ∧ Py.contains (String Py.LF EmptyString) item = false)
    items →
  prep expand (Some (Py.join (String Py.LF EmptyString) items)) false = items.
Proof.
  intros Hall. rewrite prep_lines. cbn [default id].
  destruct items as [|x l]; [done|].
  rewrite split_join_char; [|done|].
  - apply filter_nonempty_id. eapply Forall_impl; [exact Hall|]. by intros ? [].
  - eapply Forall_impl; [exact Hall|]. by intros ? [].
Qed.

Lemma getitem_last_split section :
  ∃ x, Py.getitem (Py.split section MARK) (-1) = Ok x.
Proof.
  pose proof (split_go_nonempty MARK 0 section) as Hne.
  fold (Py.split section MARK) in Hne.
  destruct (last (Py.split section MARK)) as [x|] eqn:Hl.
  - exists x. apply getitem_minus_one.
    rewrite last_lookup in Hl. by rewrite Nat.sub_1_r.
  - by apply last_None in Hl.
Qed.

(** X20. A section that the configuration does not have, other than the
    name of the default section, gives [NoSectionError]: the name of the
    definition is taken from the section name without error before the
    first option is read. *)
Theorem __init___missing_section (config : Config) (section : string) :
  config !! section = None →
  section ≠ DEFAULTSECT →
  __init__ expand config section = Raise (NoSectionError section).
Proof.
  intros Hs Hd. unfold __init__.
  destruct (getitem_last_split section) as [x ->].
  cbn [bind]. unfold get, _unify_values.
  by rewrite (bool_decide_false _ Hd), Hs.
Qed.

(** X21. A section whose [target] is the empty text gives the
    [IndexError] of [prep(...)[0]], whatever its other options. *)
Theorem __init___empty_target
    (config : Config) (section : string) (opts : gmap string string) :
  config !! section = Some opts →
  opts !! "target" = Some EmptyString →
  ∃ msg, __init__ expand config section = Raise (IndexError msg).
Proof.
  intros Hs Ht. unfold __init__.
  destruct (getitem_last_split section) as [x ->]. cbn [bind].
  assert (get config section "target" = Ok EmptyString) as ->.
  { unfold get, _unify_values. case_bool_decide as Hd.
    - subst section. unfold _defaults. rewrite Hs.
      change (default ∅ (Some opts)) with opts. cbn [bind].
      change (Py.lower "target") with "target". by rewrite Ht.
    - rewrite Hs. cbn [bind]. change (Py.lower "target") with "target".
      by rewrite (lookup_union_Some_l _ _ _ _ Ht). }
  cbn. by eexists.
Qed.

Lemma get_Ok config section opt v :
  get config section opt = Ok v →
  ∃ d, _unify_values config section = Ok d ∧ is_Some (d !! Py.lower opt).
Proof.
  unfold get. destruct (_unify_values config section) as [d|]; [|done].
  cbn [bind]. destruct (d !! Py.lower opt) as [raw|] eqn:Hraw; [|done].
  intros _. exists d. split; [done|]. rewrite Hraw. by exists raw.
Qed.

Lemma getboolean_Ok config section opt v :
  getboolean config section opt = Ok v →
  ∃ d, _unify_values config section = Ok d ∧ is_Some (d !! Py.lower opt).
Proof.
  unfold getboolean. destruct (get config section opt) eqn:Hg; [|done].
  intros _. by eapply get_Ok.
Qed.

Lemma get_fallback_missing config section d opt r :
  _unify_values config section = Ok d →
  d !! Py.lower opt = None →
  get_fallback config section opt = r → r = Ok None.
Proof. unfold get_fallback. by intros -> -> <-. Qed.

Lemma get_theme_option config section d :
  _unify_values config section = Ok d →
  match get config section "theme" with
  | Ok _ => is_Some (d !! "theme")
  | Raise (NoOptionError _) => d !! "theme" = None
  | Raise _ => is_Some (d !! "theme")
  end.
Proof.
  unfold get. intros ->. cbn [bind]. change (Py.lower "theme") with "theme".
  destruct (d !! "theme") as [raw|] eqn:Hraw; [|done].
  destruct (_interpolate_some _ _ _) as [v|e] eqn:Hi; [done|].
  apply _interpolate_some_raises in Hi as [[? ->]|[[? ->]| ->]]; done.
Qed.

(** X22. A build definition is constructed only when each of the six
    mandatory options is in the section or among the defaults. Its watch
    paths are its themes followed by its sources, it has no last build,
    its theme is [None] exactly when neither the section nor the defaults
    have a [theme], and an [excludes] or [files] option that neither has
    gives the empty list. *)
Theorem __init___result
    (config : Config) (section : string) (self : BuildDef) :
  __init__ expand config section = Ok self →
  ∃ d,
    _unify_values config section = Ok d
    ∧ Forall (λ o, is_Some (d !! o))
        ["target"; "sources"; "addheader"; "addinfo"; "suffix"; "themes"]
    ∧ watchPaths self = themes self ++ sources self
    ∧ lastFilename self = None ∧ lastBuild self = None
    ∧ (theme self = None ↔ d !! "theme" = None)
    ∧ (d !! "excludes" = None → excludes self = [])
    ∧ (d !! "files" = None → files self = []).
Proof.
  unfold __init__. destruct (getitem_last_split section) as [x ->].
  cbn [bind].
  destruct (get config section "target") as [t|] eqn:Ht; cbn [bind]; [|done].
  destruct (Py.getitem (prep expand (Some t) true) 0) as [tp|];
    cbn [bind]; [|done].
  destruct (get config section "sources") as [s|] eqn:Hs; cbn [bind];
    [|done].
  destruct (getboolean config section "addheader") as [hb|] eqn:Hh;
    cbn [bind]; [|done].
  destruct (getboolean config section "addinfo") as [ib|] eqn:Hi;
    cbn [bind]; [|done].
  destruct (get config section "suffix") as [sf|] eqn:Hsf; cbn [bind];
    [|done].
  destruct (get config section "themes") as [th|] eqn:Hth; cbn [bind];
    [|done].
  destruct (get_fallback config section "excludes") as [ex|] eqn:Hex;
    cbn [bind]; [|done].
  destruct (get_fallback config section "files") as [fl|] eqn:Hfl;
    cbn [bind]; [|done].
  apply get_Ok in Ht as (d & Hd & Ht), Hs as (? & Hd1 & Hs),
      Hsf as (? & Hd2 & Hsf), Hth as (? & Hd3 & Hth).
  apply getboolean_Ok in Hh as (? & Hd4 & Hh), Hi as (? & Hd5 & Hi).
  rewrite Hd in Hd1, Hd2, Hd3, Hd4, Hd5.
  injection Hd1 as <-. injection Hd2 as <-. injection Hd3 as <-.
  injection Hd4 as <-. injection Hd5 as <-.
  pose proof (get_theme_option config section d Hd) as Htheme.
  intros Hok. exists d. split; [done|]. split.
  { repeat (constructor;
            [first [exact Ht|exact Hs|exact Hh|exact Hi|exact Hsf|exact Hth]|]).
    constructor. }
  assert (∃ tm, match get config section "theme" with
                | Ok t => Ok (Some t)
                | Raise (NoOptionError _) => Ok None
                | Raise e => Raise e
                end = Ok tm ∧ (tm = None ↔ d !! "theme" = None))
    as (tm & Htm & Hnone).
  { destruct (get config section "theme") as [t'|[]]; try done.
    - exists (Some t'). split; [done|].
      split; [done|]. intros Hn. by rewrite Hn in Htheme; destruct Htheme.
    - by exists None. }
  rewrite Htm in Hok. cbn [bind] in Hok. injection Hok as <-. cbn.
  split_and!; try done.
  - intros Hn.
    by injection (get_fallback_missing _ _ _ "excludes" _ Hd Hn Hex) as ->.
  - intros Hn.
    by injection (get_fallback_missing _ _ _ "files" _ Hd Hn Hfl) as ->.
Qed.

End with_environment.

Lemma insert_sorted_perm p l : insert_sorted p l ≡ₚ p :: l.
Proof.
  induction l as [|q l IH]; [done|]. simpl.
  destruct (parts_ltb _ _); [done|].
  by rewrite IH, Permutation_swap.
Qed.

Lemma sorted_paths_perm l : lib.sorted l ≡ₚ l.
Proof.
  induction l as [|p l IH]; [done|]. simpl.
  by rewrite insert_sorted_perm, IH.
Qed.

Lemma ltb_antisym a b :
  String.ltb a b = false → String.ltb b a = false → a = b.
Proof.
  unfold String.ltb. rewrite (String.compare_antisym a b).
  destruct (String.compare b a) eqn:Hba; try done.
  by apply String.compare_eq_iff in Hba.
Qed.

Lemma ltb_irrefl a : String.ltb a a = false.
Proof. unfold String.ltb. by rewrite compare_refl. Qed.

Lemma parts_ltb_total a b : parts_ltb a b = true → parts_ltb b a = false.
Proof.
  revert b. induction a as [|x a IH]; intros [|y b]; try done.
  cbn [parts_ltb].
  destruct (String.ltb x y) eqn:Hxy.
  - intros _. rewrite (ltb_total _ _ Hxy).
    destruct (String.eqb y x) eqn:Heq; [|done].
    apply String.eqb_eq in Heq as ->. by rewrite ltb_irrefl in Hxy.
  - destruct (String.eqb x y) eqn:Heq; [|done].
    apply String.eqb_eq in Heq as ->.
    rewrite ltb_irrefl, String.eqb_refl. apply IH.
Qed.

Lemma parts_leb_trans a b c :
  parts_ltb a b = false → parts_ltb b c = false → parts_ltb a c = false.
Proof.
  revert b c. induction a as [|x a IH]; intros [|y b] [|z c]; try done.
  cbn [parts_ltb].
  destruct (String.ltb x y) eqn:Hxy; [done|].
  destruct (String.ltb y z) eqn:Hyz; [done|].
  rewrite (ltb_leb_trans _ _ _ Hxy Hyz).
  destruct (String.eqb x z) eqn:Hxz; [|done].
  apply String.eqb_eq in Hxz as <-.
  rewrite (ltb_antisym _ _ Hxy Hyz), !String.eqb_refl.
  apply IH.
Qed.

Lemma insert_sorted_sorted p l :
  StronglySorted path_le l → StronglySorted path_le (insert_sorted p l).
Proof.
  induction 1 as [|q l Hs IH Hall]; simpl.
  { repeat constructor. }
  destruct (parts_ltb (parts p) (parts q)) eqn:Hpq.
  - constructor; [by constructor|].
    constructor; [by apply parts_ltb_total|].
    eapply Forall_impl; [exact Hall|]. intros r Hr. cbn beta in *.
    eapply parts_leb_trans; [exact Hr|]. by apply parts_ltb_total.
  - constructor; [done|].
    rewrite insert_sorted_perm. by constructor.
Qed.

Lemma sorted_paths_sorted l : StronglySorted path_le (lib.sorted l).
Proof.
  induction l as [|p l IH]; [constructor|]. by apply insert_sorted_sorted.
Qed.

Section with_filesystem.
Variable iterdir : PathLib.Path → list PathLib.Path.
Variable is_file : PathLib.Path → bool.
Variable read_text : PathLib.Path → string.
Variable asctime : string.

(** X23. The files of a build are the regular files of the source
    directories that have the suffix of the definition and a name that is
    not excluded and, when [files] is given, that is listed there: no
    other path is among them, and each of these is. *)
Theorem get_config_parts_members (self : BuildDef) (sp : PathLib.Path) :
  sp ∈ get_config_parts iterdir is_file self
  ↔ (∃ sourcePath, sourcePath ∈ sources self ∧ sp ∈ iterdir sourcePath)
    ∧ is_file sp = true
    ∧ PathLib.suffix sp = suffix self
    ∧ (PathLib.name sp ∉ excludes self)
    ∧ (files self = [] ∨ PathLib.name sp ∈ files self).
Proof.
  unfold get_config_parts. rewrite sorted_paths_perm.
  rewrite list_elem_of_In, List.in_flat_map.
  setoid_rewrite List.filter_In. setoid_rewrite <- list_elem_of_In.
  unfold config_part.
  split.
  - intros (sourcePath & Hsrc & Hsp & Hc).
    destruct (is_file sp); [|done]. cbn [negb] in Hc.
    case_bool_decide as Hex; [done|].
    case_bool_decide as Hsf; [done|].
    split_and!; [by exists sourcePath|done|by destruct (decide (PathLib.suffix sp = suffix self))|done|].
    destruct (files self); [by left|]. right. by apply bool_decide_eq_true in Hc.
  - intros ((sourcePath & Hsrc & Hsp) & -> & Hsf & Hex & Hfiles).
    exists sourcePath. split_and!; [done..|]. cbn [negb].
    rewrite (bool_decide_false _ Hex).
    rewrite bool_decide_false by (by intros []).
    destruct (files self) as [|f fs] eqn:Hf; [done|].
    destruct Hfiles as [?|Hin]; [done|]. by rewrite bool_decide_true.
Qed.

(** X24. [get_config_parts] returns the files in the order of their path
    parts: no file of the list is less than a file before it. *)
Theorem get_config_parts_in_order
    (self : BuildDef) (i j : nat) (p q : PathLib.Path) :
  i < j →
  get_config_parts iterdir is_file self !! i = Some p →
  get_config_parts iterdir is_file self !! j = Some q →
  parts_ltb (parts q) (parts p) = false.
Proof.
  intros Hij Hi Hj.
  exact (StronglySorted_lookup path_le _ i j p q
           (sorted_paths_sorted _) Hij Hi Hj).
Qed.

Lemma get_theme_Ok (self : BuildDef) (thm content : string) :
  get_theme iterdir is_file read_text self thm = Ok content →
  ∃ themePath tp,
    themePath ∈ themes self ∧ tp ∈ iterdir themePath
    ∧ is_file tp = true ∧ PathLib.name tp = thm.
Proof.
  unfold get_theme.
  destruct (List.flat_map _ (themes self)) as [|tp0 l] eqn:Hl; [done|].
  intros _.
  assert (tp0 ∈ List.flat_map
            (λ themePath,
               List.filter
                 (λ tp, is_file tp && bool_decide (PathLib.name tp = thm))
                 (iterdir themePath)) (themes self)) as Hin
      by (rewrite Hl; by left).
  rewrite list_elem_of_In, List.in_flat_map in Hin.
  destruct Hin as (themePath & Hd%list_elem_of_In & Hin).
  rewrite List.filter_In, <- list_elem_of_In in Hin.
  destruct Hin as [Htp [Hf Hn%bool_decide_eq_true]%andb_true_iff].
  by exists themePath, tp0.
Qed.

(** X25. [build] gives a text only for a definition without theme, with
    an empty theme, or with a theme that some theme directory lists as a
    regular file: for a named theme without such a file no text is
    written. *)
Theorem build_needs_theme_file (self : BuildDef) (text : string) :
  build iterdir is_file read_text asctime self = Ok text →
  theme self = None
  ∨ theme self = Some EmptyString
  ∨ ∃ thm themePath tp,
      theme self = Some thm ∧ themePath ∈ themes self
      ∧ tp ∈ iterdir themePath ∧ is_file tp = true ∧ PathLib.name tp = thm.
Proof.
  unfold build.
  destruct (theme self) as [[|c r]|] eqn:Ht; [by right; left| |by left].
  destruct (get_theme iterdir is_file read_text self (String c r))
    as [t|e'] eqn:Hg; cbn [bind]; [|done].
  intros _. right; right.
  apply get_theme_Ok in Hg as (themePath & tp & ?).
  by exists (String c r), themePath, tp.
Qed.

End with_filesystem.

Lemma prep_reads_back_joined_items_witness :
  prep id (Some (Py.join (String Py.LF EmptyString) ["/cfg"; "/themes"]))
    false
  = ["/cfg"; "/themes"].
Proof.
  apply (prep_reads_back_joined_items id ["/cfg"; "/themes"]).
  repeat constructor; done.
Defined.

Lemma __init___missing_section_witness :
  __init__ id both_filters "builddef:other"
  = Raise (NoSectionError "builddef:other").
Proof.
  by apply (__init___missing_section id both_filters "builddef:other").
Defined.

Lemma __init___empty_target_witness :
  ∃ msg,
    __init__ id
      (<["builddef:main" := {[ "target" := EmptyString ]}]> both_filters)
      "builddef:main"
    = Raise (IndexError msg).
Proof.
  by apply (__init___empty_target id
              (<["builddef:main" := {[ "target" := EmptyString ]}]> both_filters)
              "builddef:main" {[ "target" := EmptyString ]}).
Defined.

Lemma __init___result_witness :
  ∃ d,
    _unify_values both_filters "builddef:main" = Ok d
    ∧ Forall (λ o, is_Some (d !! o))
        ["target"; "sources"; "addheader"; "addinfo"; "suffix"; "themes"]
    ∧ watchPaths both_filters_def
      = themes both_filters_def ++ sources both_filters_def
    ∧ lastFilename both_filters_def = None
    ∧ lastBuild both_filters_def = None
    ∧ (theme both_filters_def = None ↔ d !! "theme" = None)
    ∧ (d !! "excludes" = None → excludes both_filters_def = [])
    ∧ (d !! "files" = None → files both_filters_def = []).
Proof.
  apply (__init___result id both_filters "builddef:main" both_filters_def).
  by vm_compute.
Defined.

Lemma build_needs_theme_file_witness :
  theme themed_def = None
  ∨ theme themed_def = Some EmptyString
  ∨ ∃ thm themePath tp,
      theme themed_def = Some thm ∧ themePath ∈ themes themed_def
      ∧ tp ∈ cfg_iterdir themePath ∧ (λ _ : PathLib.Path, true) tp = true
      ∧ PathLib.name tp = thm.
Proof.
  apply (build_needs_theme_file cfg_iterdir (λ _, true) cfg_read_text
           "Thu Jan  1 00:00:00 1970" themed_def (partials._raw base)).
  by vm_compute.
Defined.

Lemma get_config_parts_in_order_witness :
  parts_ltb (parts "/cfg/scheme.light.conf") (parts "/cfg/base.conf") = false.
Proof.
  apply (get_config_parts_in_order cfg_iterdir (λ _, true)
           {| name := "main"; target := "/out/config"; sources := ["/cfg"];
              addheader := false; addinfo := false; suffix := ".conf";
              themes := []; excludes := []; files := []; theme := None;
              watchPaths := ["/cfg"]; lastFilename := None;
              lastBuild := None |} 0 2); [lia|by vm_compute..].
Defined.

End builddef_facts.

(** ** The selector arguments of the command line *)

Module argv_facts.
Import utils.
Import string_facts path_facts.

Local Abbreviation no_equals s := (Py.contains "=" s = false).
Local Abbreviation argument kv :=
  (marker +:+ fst kv +:+ "=" +:+ snd kv).
Local Abbreviation stored m kv := (<[fst kv := snd kv]> m).
Local Abbreviation left_over arg :=
  (negb (Py.startswith arg marker) || negb (Py.contains "=" arg)).

Lemma prefix_app p s : String.prefix p (p +:+ s) = true.
Proof.
  induction p as [|c p IH]; [by destruct s|].
  rewrite app_cons. simpl. by destruct (ascii_dec c c).
Qed.

Lemma slice_from_app p s : slice_from (String.length p) (p +:+ s) = s.
Proof. induction p as [|c p IH]; [done|]. by rewrite app_cons. Qed.

Lemma prefix_slice_from p s :
  String.prefix p s = true → s = p +:+ slice_from (String.length p) s.
Proof.
  revert s. induction p as [|c p IH]; intros s; [done|].
  destruct s as [|d s]; [done|]. simpl.
  destruct (ascii_dec c d) as [->|]; [|done].
  intros Hp. rewrite app_cons. f_equal. by apply IH.
Qed.

Lemma contains_slice_from c n s :
  Py.contains (String c EmptyString) s = false →
  Py.contains (String c EmptyString) (slice_from n s) = false.
Proof.
  revert s. induction n as [|n IH]; intros s; [done|].
  destruct s as [|d s]; [done|].
  rewrite contains_char_cons. intros [_ Hs]%orb_false_elim.
  by apply IH.
Qed.

Lemma split_pair s k v :
  Py.split s "=" = [k; v] ↔ s = k +:+ "=" +:+ v ∧ no_equals k ∧ no_equals v.
Proof.
  split.
  - intros Hs. split_and!.
    + by rewrite <- (join_split_char "=" s), Hs.
    + apply (split_char_pieces "=" s). rewrite Hs. by left.
    + apply (split_char_pieces "=" s). rewrite Hs. by right; left.
  - intros (-> & Hk & Hv). change (k +:+ "=" +:+ v) with (k +:+ String "=" v).
    by rewrite (split_char_app "=" k v Hk), (split_char_none "=" v Hv).
Qed.

Lemma selector_loop_wellformed (kvs : list (string * string)) m leftovers :
  Forall (λ kv, no_equals (fst kv) ∧ no_equals (snd kv)) kvs →
  selector_loop ((λ kv, argument kv) <$> kvs) m leftovers
  = Ok (foldl (λ m kv, stored m kv) m kvs, leftovers).
Proof.
  intros Hall. revert m.
  induction Hall as [|[k v] kvs [Hk Hv] _ IH]; intros m; [done|].
  cbn [fmap list_fmap selector_loop fst snd].
  change ("=" +:+ v) with (String "=" v).
  unfold Py.startswith. rewrite prefix_app, contains_char_app.
  rewrite (contains_char_app "=" k), contains_char_cons.
  rewrite bool_decide_true by done. rewrite !orb_true_r. cbn [negb orb].
  unfold markerLen. rewrite slice_from_app.
  rewrite (split_char_app "=" k v Hk), (split_char_none "=" v Hv).
  apply IH.
Qed.

Lemma selector_loop_leftovers argv m leftovers m' leftovers' :
  selector_loop argv m leftovers = Ok (m', leftovers') →
  leftovers' = leftovers ++ List.filter (λ arg, left_over arg) argv
  ∧ ∃ kvs : list (string * string),
      Forall2 (λ arg kv, slice_from markerLen arg
                         = fst kv +:+ "=" +:+ snd kv
                         ∧ no_equals (fst kv) ∧ no_equals (snd kv)) argv kvs
      ∧ m' = foldl (λ m kv, stored m kv) m kvs.
Proof.
  revert m leftovers.
  induction argv as [|arg rest IH]; intros m leftovers.
  { intros [= <- <-]. split; [by rewrite app_nil_r|]. by exists []. }
  cbn [selector_loop List.filter].
  destruct (Py.split (slice_from markerLen arg) "=")
    as [|k [|v [|x l]]] eqn:Hs; try done.
  intros (-> & kvs & Hall & ->)%IH.
  apply split_pair in Hs as (Hs & Hk & Hv). split.
  - destruct (left_over arg); [|done]. by rewrite <- app_assoc.
  - exists ((k, v) :: kvs). split; [|done]. by constructor.
Qed.

(** X26. [get_selector_map] returns a map exactly for a command line of
    arguments [--select-<key>=<value>] whose keys and values hold no
    ["="]; the map then has every key with the value of its last
    argument. *)
Theorem get_selector_map_returns_iff
    (argv : list string) (selectorMap : gmap string string) :
  get_selector_map argv = Returned selectorMap
  ↔ ∃ kvs : list (string * string),
      argv = (λ kv, marker +:+ fst kv +:+ "=" +:+ snd kv) <$> kvs
      ∧ Forall (λ kv, Py.contains "=" (fst kv) = false
                      ∧ Py.contains "=" (snd kv) = false) kvs
      ∧ selectorMap = foldl (λ m kv, <[fst kv := snd kv]> m) ∅ kvs.
Proof.
  unfold get_selector_map. split.
  - destruct (selector_loop argv ∅ []) as [[m [|x l]]|e] eqn:Hl; try done.
    intros [= <-].
    apply selector_loop_leftovers in Hl as (Hlo & kvs & Hall & ->).
    exists kvs. split_and!; [| |done].
    2:{ eapply Forall2_Forall_r; [exact Hall|].
        apply Forall_forall. by intros arg _ kv (_ & Hk & Hv). }
    symmetry in Hlo. cbn [app] in Hlo.
    assert (Forall (λ arg, left_over arg = false) argv) as Hno.
    { apply Forall_forall. intros arg Hin.
      destruct (left_over arg) eqn:Hc; [|done].
      assert (arg ∈ List.filter (λ arg, left_over arg) argv) as Hf
          by (apply list_elem_of_In, List.filter_In;
              by rewrite <- list_elem_of_In).
      rewrite Hlo in Hf. by apply elem_of_nil in Hf. }
    clear Hlo. revert Hno.
    induction Hall as [|arg kv argv kvs (Hs & _) _ IH]; [done|].
    intros [Harg Hrest]%Forall_cons. cbn [fmap list_fmap]. f_equal.
    + apply orb_false_elim in Harg as [Hp%negb_false_iff _].
      rewrite (prefix_slice_from marker arg Hp). fold markerLen.
      by rewrite Hs.
    + by apply IH.
  - intros (kvs & -> & Hall & ->).
    by rewrite (selector_loop_wellformed kvs ∅ [] Hall).
Qed.

Lemma selector_loop_missing_equals argv arg m leftovers :
  arg ∈ argv → no_equals arg →
  ∃ msg, selector_loop argv m leftovers = Raise (ValueError msg).
Proof.
  intros Hin Harg. revert m leftovers.
  induction argv as [|a rest IH]; intros m leftovers;
    [by apply elem_of_nil in Hin|].
  cbn [selector_loop].
  destruct (Py.split (slice_from markerLen a) "=")
    as [|k [|v [|x l]]] eqn:Hs; try by eexists.
  apply elem_of_cons in Hin as [->|Hin]; [|by apply IH].
  rewrite (split_char_none "=" _ (contains_slice_from "=" markerLen a Harg))
    in Hs.
  discriminate Hs.
Qed.

(** X27. A command line with an argument that holds no ["="] ends in the
    [ValueError] of the unpacking, whatever its other arguments: the
    error message of the parser with the hint is not reached. *)
Theorem get_selector_map_missing_equals
    (argv : list string) (arg : string) :
  arg ∈ argv →
  Py.contains "=" arg = false →
  ∃ msg, get_selector_map argv = Raised (ValueError msg).
Proof.
  intros Hin Harg. unfold get_selector_map.
  destruct (selector_loop_missing_equals argv arg ∅ [] Hin Harg)
    as [msg ->].
  by exists msg.
Qed.

Lemma get_selector_map_missing_equals_witness :
  ∃ msg, get_selector_map ["--select-scheme=dark"; "--verbose"]
         = Raised (ValueError msg).
Proof.
  apply (get_selector_map_missing_equals
           ["--select-scheme=dark"; "--verbose"] "--verbose").
  - by right; left.
  - by vm_compute.
Defined.

(** X28. [get_selector_map] ends in the error of the parser only when some
    argument does not start with [--select-] and has exactly one ["="],
    which comes after its ninth character; the message lists all
    arguments. *)
Theorem get_selector_map_exit
    (argv : list string) (message : string) :
  get_selector_map argv = Exited message →
  message = "unrecognized arguments: " +:+ Py.join "; " argv
            +:+ String Py.LF EmptyString +:+ hint
  ∧ ∃ arg k v,
      arg ∈ argv ∧ Py.startswith arg marker = false
      ∧ slice_from markerLen arg = k +:+ "=" +:+ v
      ∧ Py.contains "=" k = false ∧ Py.contains "=" v = false.
Proof.
  unfold get_selector_map.
  destruct (selector_loop argv ∅ []) as [[m [|x l]]|e] eqn:Hl; try done.
  intros [= <-]. split; [done|].
  apply selector_loop_leftovers in Hl as (Hlo & kvs & Hall & _).
  cbn [app] in Hlo.
  assert (x ∈ List.filter (λ arg, left_over arg) argv) as Hx
      by (rewrite <- Hlo; by left).
  apply list_elem_of_In, List.filter_In in Hx as [Hx%list_elem_of_In Hc].
  destruct (proj1 (list_elem_of_lookup _ _) Hx) as [i Hi].
  destruct (Forall2_lookup_l _ _ _ _ _ Hall Hi)
    as ([k v] & _ & Hs & Hk & Hv).
  cbn [fst snd] in Hs, Hk, Hv.
  exists x, k, v. split_and!; try done.
  apply orb_true_iff in Hc as [Hp%negb_true_iff|Hc%negb_true_iff]; [done|].
  apply (contains_slice_from "=" markerLen) in Hc.
  rewrite Hs in Hc. change ("=" +:+ v) with (String "=" v) in Hc.
  rewrite contains_char_app, contains_char_cons in Hc.
  rewrite bool_decide_true, orb_true_r in Hc by done. done.
Qed.

Lemma get_selector_map_exit_witness :
  ∃ arg k v,
    arg ∈ ["--verbose=1"] ∧ Py.startswith arg marker = false
    ∧ slice_from markerLen arg = k +:+ "=" +:+ v
    ∧ Py.contains "=" k = false ∧ Py.contains "=" v = false.
Proof.
  refine (proj2 (get_selector_map_exit ["--verbose=1"] _ _)).
  by vm_compute.
Defined.

End argv_facts.
